(** * url_to_metadata: a shallow embedding of [url_to_metadata.py]

    The pipeline resolves links, extracts an ISBN/ASIN from each resolved
    URL, partitions the identifiers by length and joins them against a
    warehouse table.

    Modelling conventions.
    - A Python [str] is a [string] (characters are the code points 0..255).
    - A [dict] used as a lookup table is a [gmap string string].
    - Exceptions are values of [exn]; a function that may raise returns a
      [result].
    - The outside world (the pickle file, the HTTP endpoint, the warehouse)
      is an explicit [world] threaded through the functions that touch it.
      The answers of the network and of the warehouse are parameters,
      indexed by the number of requests (statements) issued so far, so
      that two requests for the same link may be answered differently.
    - The cache file is either absent or holds a pickled dict, and
      writing it succeeds; other failures of [open] and [pickle], which
      the source lets propagate, are outside the model, so the properties
      of the resolver describe a run that returns.
    - The progress counts the functions print are not modelled. *)

From Stdlib Require Import Ascii String List Arith Lia Bool.
From stdpp Require Import gmap strings list fin_maps.

Local Open Scope string_scope.
Local Open Scope list_scope.

#[local] Arguments String.append !s1 s2 : simpl nomatch.

(** ** Python exceptions and results *)

Inductive exn : Type :=
| TypeError
| IndexError
| ValueError (msg : string)
| DatabaseError        (* a statement that fails in [pd.read_sql] *)
| ConnectionError      (* a failure of [SSQL.connect()] *)
| Unmodelled.          (* not an exception: a template outside the fragment of [format] *)

Inductive result (A : Type) : Type :=
| Ok (a : A)
| Err (e : exn).
Arguments Ok {A} a.
Arguments Err {A} e.

Definition is_IndexError (e : exn) : bool :=
  match e with IndexError => true | _ => false end.

(** ** Strings *)

Module Str.

(** [all P s]: every character of [s] satisfies [P]. *)
Fixpoint all (P : ascii -> bool) (s : string) : bool :=
  match s with
  | EmptyString => true
  | String c s' => P c && all P s'
  end.

(** [drop n s]: the Python slice [s[n:]]. *)
Fixpoint drop (n : nat) (s : string) : string :=
  match n, s with
  | O, _ => s
  | S n', EmptyString => EmptyString
  | S n', String _ s' => drop n' s'
  end.

(** [contains needle hay]: the Python test [needle in hay]. *)
Fixpoint contains (needle hay : string) : bool :=
  String.prefix needle hay ||
  match hay with
  | EmptyString => false
  | String _ hay' => contains needle hay'
  end.

(** [take n s]: the Python slice [s[:n]]. *)
Fixpoint take (n : nat) (s : string) : string :=
  match n, s with
  | O, _ => ""
  | S n', EmptyString => ""
  | S n', String c s' => String c (take n' s')
  end.

End Str.

(** ** Regular expressions

    The fragment of Python's [re] syntax that [names["regex_str"]] uses:
    literal characters, bracketed classes of ranges, concatenation,
    counted repetition [{n}] and alternation.  Groups only delimit the
    alternatives (the code reads group 0 alone), so they leave no trace in
    the syntax tree. *)

Inductive regex : Type :=
| Eps
| Chr (c : ascii)
| Cls (ranges : list (ascii * ascii))
| Seq (r1 r2 : regex)
| Alt (r1 r2 : regex).

(** [r{n}] *)
Fixpoint Rep (r : regex) (n : nat) : regex :=
  match n with
  | O => Eps
  | S n' => Seq r (Rep r n')
  end.

(** a literal word *)
Fixpoint Lit (s : string) : regex :=
  match s with
  | EmptyString => Eps
  | String c s' => Seq (Chr c) (Lit s')
  end.

Definition in_range (c : ascii) (rg : ascii * ascii) : bool :=
  Nat.leb (nat_of_ascii (fst rg)) (nat_of_ascii c) &&
  Nat.leb (nat_of_ascii c) (nat_of_ascii (snd rg)).

Definition in_class (ranges : list (ascii * ascii)) (c : ascii) : bool :=
  existsb (in_range c) ranges.

(** [matches r s]: every way the backtracking matcher can match [r] at the
    start of [s], as pairs (matched text, rest), in the order the matcher
    tries them: the left alternative first, and for a concatenation the
    first way of the left part with all ways of the right part before the
    next way of the left part. *)
Fixpoint matches (r : regex) (s : string) : list (string * string) :=
  match r with
  | Eps => [("", s)]
  | Chr c =>
      match s with
      | String a s' => if Ascii.eqb a c then [(String a "", s')] else []
      | EmptyString => []
      end
  | Cls ranges =>
      match s with
      | String a s' => if in_class ranges a then [(String a "", s')] else []
      | EmptyString => []
      end
  | Seq r1 r2 =>
      flat_map (fun '(m1, s1) =>
                  List.map (fun '(m2, s2) => (m1 +:+ m2, s2)) (matches r2 s1))
               (matches r1 s)
  | Alt r1 r2 => matches r1 s ++ matches r2 s
  end.

(** [re.match]: the text of the first successful way, if any. *)
Definition match_at (r : regex) (s : string) : option string :=
  match matches r s with
  | (m, _) :: _ => Some m
  | [] => None
  end.

(** [re.search(exp, s)]: scan the start positions from left to right and
    return group 0 of the first position where the pattern matches; [None]
    when no position matches. *)
Fixpoint re_search (r : regex) (s : string) : option string :=
  match match_at r s with
  | Some m => Some m
  | None =>
      match s with
      | EmptyString => None
      | String _ s' => re_search r s'
      end
  end.

(** [match[0]]: group 0 of a match object; subscripting [None] raises
    [TypeError] ('NoneType' object is not subscriptable). *)
Definition getitem0 (match_ : option string) : result string :=
  match match_ with
  | Some m => Ok m
  | None => Err TypeError
  end.

(** [lang r m]: the text [m] belongs to the language of [r]. *)
Fixpoint lang (r : regex) (m : string) : Prop :=
  match r with
  | Eps => m = ""
  | Chr c => m = String c ""
  | Cls ranges => exists a, m = String a "" /\ in_class ranges a = true
  | Seq r1 r2 => exists m1 m2, m = m1 +:+ m2 /\ lang r1 m1 /\ lang r2 m2
  | Alt r1 r2 => lang r1 m \/ lang r2 m
  end.

(** ** The configuration [names] *)

Record Names : Type := {
  links : string;      (* names["links"]: the pickle file of the cache *)
  regex_str : regex;   (* names["regex_str"] *)
  q : string           (* names["q"]: the query template *)
}.

Definition digit : regex := Cls [("0", "9")]%char.
Definition upper_alnum : regex := Cls [("A", "Z"); ("0", "9")]%char.

(** [(978[0-9]{10})|(B[A-Z0-9]{9})|([0-9]{9}[A-Z0-9]{1})] *)
Definition default_regex : regex :=
  Alt (Alt (Seq (Lit "978") (Rep digit 10))
           (Seq (Lit "B") (Rep upper_alnum 9)))
      (Seq (Rep digit 9) (Rep upper_alnum 1)).

Definition nl : string := String (ascii_of_nat 10) "".

Definition default_q : string :=
  nl +:+
  "    SELECT DISTINCT" +:+ nl +:+
  "    " +:+ nl +:+
  "            ISBN_13," +:+ nl +:+
  "            ASIN," +:+ nl +:+
  "            TITLE as " +:+ String (ascii_of_nat 34) "title" +:+ String (ascii_of_nat 34) "," +:+ nl +:+
  "            AUTHOR as " +:+ String (ascii_of_nat 34) "author" +:+ String (ascii_of_nat 34) "," +:+ nl +:+
  "            ORIGINAL_PUBLICATION_DATE as " +:+ String (ascii_of_nat 34) "pub_date" +:+ String (ascii_of_nat 34) "," +:+ nl +:+
  "            NIELSEN_CATEGORY as " +:+ String (ascii_of_nat 34) "genre" +:+ String (ascii_of_nat 34) "," +:+ nl +:+
  "            NIELSEN_SUB_CATEGORY as " +:+ String (ascii_of_nat 34) "subgenre" +:+ String (ascii_of_nat 34) "," +:+ nl +:+
  "            DIVISION as " +:+ String (ascii_of_nat 34) "division" +:+ String (ascii_of_nat 34) nl +:+
  "            " +:+ nl +:+
  "    FROM    " +:+ String (ascii_of_nat 34) "EDP_PROD" +:+ String (ascii_of_nat 34) "." +:+
       String (ascii_of_nat 34) "INFO_CORE" +:+ String (ascii_of_nat 34) "." +:+
       String (ascii_of_nat 34) "TITLE_INFO_DIM" +:+ String (ascii_of_nat 34) nl +:+
  "    " +:+ nl +:+
  "    WHERE   DIVISION not in ('PRH Other','PRH Corporate')" +:+ nl +:+
  "    AND     {} in {}" +:+ nl +:+
  "    ".

Definition names : Names :=
  {| links := "link_lookup.pkl"; regex_str := default_regex; q := default_q |}.

(** ** Identifier Extractor: [get_asinisbns] *)

(** The body of the [for] loop, with [asinisbn_list] as accumulator.
    [match[0]] is evaluated inside the [try]; the handler continues the
    loop on [IndexError] only, any other exception leaves the function. *)
Fixpoint asinisbns_loop (exp : regex) (longlink_list : list (string * string))
    (asinisbn_list : list (string * string)) : result (list (string * string)) :=
  match longlink_list with
  | [] => Ok asinisbn_list
  | (link, longlink) :: rest =>
      let match_ := re_search exp longlink in
      match getitem0 match_ with
      | Ok m0 => asinisbns_loop exp rest (asinisbn_list ++ [(link, m0)])
      | Err e =>
          if is_IndexError e
          then asinisbns_loop exp rest asinisbn_list
          else Err e
      end
  end.

Definition get_asinisbns (longlink_list : list (string * string)) (names : Names)
  : result (list (string * string)) :=
  let exp := regex_str names in
  asinisbns_loop exp longlink_list [].

(** ** Identifier Classifier: [get_inputs] *)

Record Inputs : Type := {
  asin : list (string * string);
  isbn : list (string * string)
}.

Fixpoint inputs_loop (input_list asin_input isbn_input : list (string * string)) : Inputs :=
  match input_list with
  | [] => {| asin := asin_input; isbn := isbn_input |}
  | (link, asinisbn) :: rest =>
      if Nat.eqb (String.length asinisbn) 10
      then inputs_loop rest (asin_input ++ [(link, asinisbn)]) isbn_input
      else if Nat.eqb (String.length asinisbn) 13
      then inputs_loop rest asin_input (isbn_input ++ [(link, asinisbn)])
      else inputs_loop rest asin_input isbn_input
  end.

Definition get_inputs (input_list : list (string * string)) (names : Names) : Inputs :=
  inputs_loop input_list [] [].

(** ** Python's [repr] and [str.format]

    [str.format] renders a tuple argument with [repr]; [repr] of a [str]
    picks the quote, escapes it and the backslash, and writes the control
    and non-printable characters as escapes. *)

Definition sq : ascii := "'"%char.
Definition dq : ascii := ascii_of_nat 34.
Definition backslash : ascii := ascii_of_nat 92.

Fixpoint has_char (c : ascii) (s : string) : bool :=
  match s with
  | EmptyString => false
  | String a s' => Ascii.eqb a c || has_char c s'
  end.

Definition hexdigit (n : nat) : ascii :=
  match String.get n "0123456789abcdef" with
  | Some c => c
  | None => "0"%char
  end.

Definition repr_quote (s : string) : ascii :=
  if has_char sq s && negb (has_char dq s) then dq else sq.

Definition repr_char (quote c : ascii) : string :=
  let n := nat_of_ascii c in
  if Ascii.eqb c quote || Ascii.eqb c backslash then String backslash (String c "")
  else if Nat.eqb n 9 then String backslash "t"
  else if Nat.eqb n 10 then String backslash "n"
  else if Nat.eqb n 13 then String backslash "r"
  else if Nat.ltb n 32 || Nat.eqb n 127 || (Nat.leb 128 n && Nat.leb n 160) || Nat.eqb n 173
  then String backslash (String "x" (String (hexdigit (n / 16)) (String (hexdigit (n mod 16)) "")))
  else String c "".

Fixpoint repr_body (quote : ascii) (s : string) : string :=
  match s with
  | EmptyString => ""
  | String c s' => repr_char quote c +:+ repr_body quote s'
  end.

Definition repr_str (s : string) : string :=
  let quote := repr_quote s in
  String quote (repr_body quote s +:+ String quote "").

(** [repr] of a tuple of strings; a one-element tuple keeps its comma. *)
Definition repr_tuple (t : list string) : string :=
  match t with
  | [] => "()"
  | [x] => "(" +:+ repr_str x +:+ ",)"
  | _ => "(" +:+ String.concat ", " (List.map repr_str t) +:+ ")"
  end.

(** [repr] of a list of strings. *)
Definition repr_list (l : list string) : string :=
  "[" +:+ String.concat ", " (List.map repr_str l) +:+ "]".

(** [template.format( *args )] with automatically numbered fields: each
    [{}] takes the next argument, a doubled brace is a literal brace, a
    closing brace on its own is an error.  An opening brace followed by
    anything else (a named or numbered field, a conversion, a format
    specification, a malformed field) is outside the model: [Unmodelled]
    marks such a template, whatever [str.format] does with it.  The
    default template has two plain fields only. *)
Definition lbrace : ascii := "{"%char.
Definition rbrace : ascii := "}"%char.

Definition single_rbrace : exn :=
  ValueError "Single '}' encountered in format string".

Fixpoint format (template : string) (args : list string) : result string :=
  match template with
  | EmptyString => Ok ""
  | String c t1 =>
      if Ascii.eqb c lbrace then
        match t1 with
        | String c2 t' =>
            if Ascii.eqb c2 rbrace then
              match args with
              | a :: args' =>
                  match format t' args' with
                  | Ok r => Ok (a +:+ r)
                  | Err e => Err e
                  end
              | [] => Err IndexError
              end
            else if Ascii.eqb c2 lbrace then
              match format t' args with
              | Ok r => Ok (String lbrace r)
              | Err e => Err e
              end
            else Err Unmodelled
        | EmptyString => Err Unmodelled
        end
      else if Ascii.eqb c rbrace then
        match t1 with
        | String c2 t' =>
            if Ascii.eqb c2 rbrace then
              match format t' args with
              | Ok r => Ok (String rbrace r)
              | Err e => Err e
              end
            else Err single_rbrace
        | EmptyString => Err single_rbrace
        end
      else
        match format t1 args with
        | Ok r => Ok (String c r)
        | Err e => Err e
        end
  end.

(** ** Tables

    A row of the warehouse result carries the columns the query selects;
    a database NULL is [None].  A row of the joined table is the link
    together with the warehouse row it was joined with (the key column of
    the left frame equals that of the right one, so it is not repeated). *)

Record title_info : Type := {
  ISBN_13 : option string;
  ASIN : option string;
  title : option string;
  author : option string;
  pub_date : option string;
  genre : option string;
  subgenre : option string;
  division : option string
}.

Record row : Type := {
  row_link : string;
  row_info : title_info
}.

(** the column [id_type] of a warehouse row *)
Definition column (id_type : string) (r : title_info) : option string :=
  if String.eqb id_type "ASIN" then ASIN r else ISBN_13 r.

Definition key_is (id_type id : string) (r : title_info) : bool :=
  match column id_type r with
  | Some k => String.eqb k id
  | None => false
  end.

(** [metadata_df.merge(_avalon, on=id_type)]: the inner join of the frame
    of (link, identifier) rows with the warehouse rows on the identifier,
    listed by the rows of the left frame.  The properties below depend on
    which rows the join has, not on their order. *)
Definition merge (id_type : string) (metadata_df : list (string * string))
    (_avalon : list title_info) : list row :=
  flat_map (fun '(link, id) =>
              List.map (fun r => {| row_link := link; row_info := r |})
                       (List.filter (key_is id_type id) _avalon))
           metadata_df.

(** ** The world *)

Record world : Type := {
  files : gmap string (gmap string string);  (* pickle files, by name *)
  requests : list string;                    (* HEAD requests issued so far *)
  queries : list string                      (* SQL statements executed so far *)
}.

(** A warehouse connection answers the [n]-th statement executed with a
    table, or fails. *)
Definition connection : Type := nat -> string -> option (list title_info).

(** Computations that read and change the world and may raise. *)
Definition M (A : Type) : Type := world -> result A * world.

Definition ret {A} (a : A) : M A := fun w => (Ok a, w).
Definition raise {A} (e : exn) : M A := fun w => (Err e, w).
Definition bind {A B} (c : M A) (k : A -> M B) : M B :=
  fun w =>
    match c w with
    | (Ok a, w') => k a w'
    | (Err e, w') => (Err e, w')
    end.

Notation "x <- c1 ;; c2" := (bind c1 (fun x => c2))
  (at level 100, c1 at next level, right associativity).

Definition id_types : list string := ["ASIN"; "ISBN_13"].

(** [pd.read_sql(query, conn)] *)
Definition read_sql (query : string) (conn : connection) : M (list title_info) :=
  fun w =>
    let w' := {| files := files w; requests := requests w;
                 queries := queries w ++ [query] |} in
    match conn (length (queries w)) query with
    | Some t => (Ok t, w')
    | None => (Err DatabaseError, w')
    end.

(** ** Metadata Fetcher: [get_metadata] *)

Definition get_metadata (names : Names) (conn : connection)
    (id_tuple : list (string * string)) (id_type : string) : M (list row) :=
  if negb (existsb (String.eqb id_type) id_types)
  then raise (ValueError ("expected list_type to be " +:+ repr_list id_types))
  else
    let id_input := List.map snd id_tuple in
    match format (q names) [id_type; repr_tuple id_input] with
    | Err e => raise e
    | Ok query =>
        _avalon <- read_sql query conn ;;
        let metadata_df := id_tuple in
        ret (merge id_type metadata_df _avalon)
    end.

Section Pipeline.

(** [head n link]: the final URL of [requests.head(link, allow_redirects=True,
    timeout=5)] when it is the [n]-th request issued, [None] when the
    request raises. *)
Variable head : nat -> string -> option string.

(** [SSQL.connect()] *)
Variable connect : result connection.

(** *** Link Resolver: [get_long_links] *)

(** The [for] loop, with [longlink_list] and the log of requests as
    accumulators.  [link_dict] is only read inside the loop. *)
Fixpoint long_links_loop (link_dict : gmap string string) (link_list : list string)
    (longlink_list : list (string * string)) (reqs : list string)
  : list (string * string) * list string :=
  match link_list with
  | [] => (longlink_list, reqs)
  | link :: rest =>
      match link_dict !! link with
      | Some longlink =>
          long_links_loop link_dict rest (longlink_list ++ [(link, longlink)]) reqs
      | None =>
          match head (length reqs) link with
          | Some longlink =>
              long_links_loop link_dict rest (longlink_list ++ [(link, longlink)])
                              (reqs ++ [link])
          | None => long_links_loop link_dict rest longlink_list (reqs ++ [link])
          end
      end
  end.

(** [{a: b for (a, b) in longlink_list}]: a later pair overrides an earlier
    one with the same key. *)
Definition dict_of_pairs (l : list (string * string)) : gmap string string :=
  fold_left (fun d '(a, b) => <[a := b]> d) l ∅.

(** the cache read from the pickle file, empty when the file is absent *)
Definition load_links (names : Names) (w : world) : gmap string string :=
  match files w !! links names with
  | Some link_dict => link_dict
  | None => ∅
  end.

Definition get_long_links (link_list : list string) (names : Names) (w : world)
  : list (string * string) * world :=
  let link_dict := load_links names w in
  let '(longlink_list, reqs) := long_links_loop link_dict link_list [] (requests w) in
  let new_link_dict := dict_of_pairs longlink_list in
  let link_dict' := new_link_dict ∪ link_dict in
  (longlink_list,
   {| files := <[links names := link_dict']> (files w);
      requests := reqs;
      queries := queries w |}).

(** *** Orchestrator: [get] *)

Definition get (link_list : list string) (names : Names) : M (list row) :=
  fun w =>
    let '(l1, w1) := get_long_links link_list names w in
    (l2 <- (fun w => (get_asinisbns l1 names, w)) ;;
     let m := get_inputs l2 names in
     conn <- (fun w => (connect, w)) ;;
     df_asin <- (if Nat.ltb 0 (length (asin m))
                 then get_metadata names conn (asin m) "ASIN"
                 else ret []) ;;
     df_isbn <- (if Nat.ltb 0 (length (isbn m))
                 then get_metadata names conn (isbn m) "ISBN_13"
                 else ret []) ;;
     ret (df_asin ++ df_isbn)) w1.

End Pipeline.

(** ** Shapes of identifiers

    The three alternatives of the default pattern, read as predicates on a
    candidate identifier. *)

Definition is_digit (c : ascii) : bool :=
  Nat.leb 48 (nat_of_ascii c) && Nat.leb (nat_of_ascii c) 57.

Definition is_upper (c : ascii) : bool :=
  Nat.leb 65 (nat_of_ascii c) && Nat.leb (nat_of_ascii c) 90.


(** an upper-case letter or a digit: the class [[A-Z0-9]] *)
Definition is_upper_alnum (c : ascii) : bool := is_upper c || is_digit c.


(** thirteen digits, the first three being 978 *)
Definition isbn13_shape (s : string) : bool :=
  Nat.eqb (String.length s) 13 && String.eqb (Str.take 3 s) "978" && Str.all is_digit s.

(** B followed by nine upper-case letters or digits *)
Definition asin_shape (s : string) : bool :=
  Nat.eqb (String.length s) 10 && String.eqb (Str.take 1 s) "B" &&
  Str.all is_upper_alnum (Str.drop 1 s).

(** nine digits followed by one upper-case letter or digit *)
Definition isbn10_shape (s : string) : bool :=
  Nat.eqb (String.length s) 10 && Str.all is_digit (Str.take 9 s) &&
  Str.all is_upper_alnum (Str.drop 9 s).

Definition id_shape (s : string) : bool :=
  isbn13_shape s || asin_shape s || isbn10_shape s.


(** ** Vocabulary of the statements *)

(** [extracted exp p q]: the extractor turns the pair [p] = (link, URL)
    into the pair [q] = (link, first match of [exp] in the URL). *)
Definition extracted (exp : regex) (p q : string * string) : Prop :=
  fst q = fst p /\ re_search exp (snd p) = Some (snd q).

(** [det r]: [r] has no alternation, so the matcher has at most one way
    to match it at a given position. *)
Fixpoint det (r : regex) : bool :=
  match r with
  | Eps | Chr _ | Cls _ => true
  | Seq r1 r2 => det r1 && det r2
  | Alt _ _ => false
  end.

(** the length test of the classifier, on a pair (link, identifier) *)
Definition len_is (n : nat) (p : string * string) : bool :=
  Nat.eqb (String.length (snd p)) n.

(** the exception of the tag check of [get_metadata] *)
Definition usage_error : exn :=
  ValueError ("expected list_type to be " +:+ repr_list id_types).

(** the world after one more statement has been executed *)
Definition logged (query : string) (w : world) : world :=
  {| files := files w; requests := requests w; queries := queries w ++ [query] |}.

(** [resolver_idempotent head link_list names w]: two runs of the resolver
    on [link_list], the second from the world the first one left, return
    the same pairs, and the second run issues no request. *)
Definition resolver_idempotent (head : nat -> string -> option string)
    (link_list : list string) (names : Names) (w : world) : Prop :=
  let '(out1, w1) := get_long_links head link_list names w in
  let '(out2, w2) := get_long_links head link_list names w1 in
  out2 = out1 /\ requests w2 = requests w1.



(** ** Sample worlds

    Concrete answers of the network and of the warehouse, for the worked
    examples. *)

Definition empty_world : world :=
  {| files := ∅; requests := []; queries := [] |}.

(** Sample answers of the network: one link resolves, any other request
    fails; no request succeeds; only the very first request fails. *)
Definition head_demo (n : nat) (link : string) : option string :=
  if String.eqb link "http://x/1"
  then Some "http://example.com/9780143127741"
  else None.

Definition head_down (n : nat) (link : string) : option string := None.

Definition head_flaky (n : nat) (link : string) : option string :=
  if Nat.eqb n 0 then None else Some "http://example.com/9780143127741".

(** the redirect target changes after the first request *)
Definition head_moved (n : nat) (link : string) : option string :=
  if Nat.eqb n 0
  then Some "http://example.com/9780143127741"
  else Some "http://example.com/moved/9780143127741".

(** Sample warehouse: one title, returned for every statement. *)
Definition title_demo : title_info :=
  {| ISBN_13 := Some "9780143127741"; ASIN := None;
     title := Some "A title"; author := Some "An author";
     pub_date := None; genre := None; subgenre := None; division := None |}.

Definition conn_demo : connection := fun _ _ => Some [title_demo].

Definition row_demo : row :=
  {| row_link := "http://x/1"; row_info := title_demo |}.

(** ** Vocabulary of the further properties *)

(** [uncached d link]: [link] is not a key of the cache [d]. *)
Definition uncached (d : gmap string string) (link : string) : bool :=
  match d !! link with
  | Some _ => false
  | None => true
  end.

(** the pairs whose identifier has neither length 10 nor length 13 *)
Definition len_other (p : string * string) : bool :=
  negb (len_is 10 p) && negb (len_is 13 p).

(** a world whose cache file holds one resolved link *)
Definition warm_world : world :=
  {| files := {[ "link_lookup.pkl" :=
                   {[ "http://x/1" := "http://example.com/9780143127741" ]} ]};
     requests := []; queries := [] |}.

(** The default template around its two fields: the text before the
    first field and the text after the second one. *)
Definition q_fields : nat :=
  match String.index 0 "{} in {}" default_q with
  | Some k => k
  | None => 0
  end.

Definition q_head : string := Str.take q_fields default_q.
Definition q_tail : string := Str.drop (q_fields + 8) default_q.

(** the statement the default template gives for a tag and a tuple *)
Definition statement (id_type : string) (ids : list string) : string :=
  q_head +:+ id_type +:+ " in " +:+ repr_tuple ids +:+ q_tail.

(** an identifier between single quotes, and a tuple of such *)
Definition quoted (id : string) : string := "'" +:+ id +:+ "'".

Definition sql_tuple (ids : list string) : string :=
  match ids with
  | [id] => "(" +:+ quoted id +:+ ",)"
  | _ => "(" +:+ String.concat ", " (List.map quoted ids) +:+ ")"
  end.

(** the orchestrator's call of the fetcher, under its non-emptiness test *)
Definition guarded (names : Names) (conn : connection)
    (group : list (string * string)) (id_type : string) : M (list row) :=
  if Nat.ltb 0 (length group)
  then get_metadata names conn group id_type
  else ret [].

(** * Properties *)

(** ** Strings: prefixes and suffixes *)

Module StrFacts.

Lemma app_nil_r (s : string) : s +:+ "" = s.
Proof. induction s as [|c s IH]; simpl; [reflexivity | f_equal; exact IH]. Qed.

Lemma app_assoc (a b c : string) : (a +:+ b) +:+ c = a +:+ (b +:+ c).
Proof. induction a as [|x a IH]; simpl; [reflexivity | f_equal; exact IH]. Qed.

Lemma length_app (a b : string) :
  String.length (a +:+ b) = String.length a + String.length b.
Proof. induction a as [|x a IH]; simpl; [reflexivity | f_equal; exact IH]. Qed.

Lemma drop_app (a b : string) : Str.drop (String.length a) (a +:+ b) = b.
Proof. induction a as [|x a IH]; simpl; [now destruct b | exact IH]. Qed.

Lemma take_drop (n : nat) (s : string) : Str.take n s +:+ Str.drop n s = s.
Proof.
  revert s; induction n as [|n IH]; intros [|c s]; simpl; try reflexivity.
  f_equal; apply IH.
Qed.

Lemma take_app (a b : string) : Str.take (String.length a) (a +:+ b) = a.
Proof.
  induction a as [|x a IH]; simpl; [reflexivity | f_equal; exact IH].
Qed.

Lemma length_take (n : nat) (s : string) :
  n <= String.length s -> String.length (Str.take n s) = n.
Proof.
  revert s; induction n as [|n IH]; intros [|c s] H; simpl in *; try lia.
  rewrite IH; lia.
Qed.

Lemma length_drop (n : nat) (s : string) :
  String.length (Str.drop n s) = String.length s - n.
Proof.
  revert s; induction n as [|n IH]; intros [|c s]; simpl; try reflexivity; try lia.
  apply IH.
Qed.

Lemma all_app (P : ascii -> bool) (a b : string) :
  Str.all P (a +:+ b) = Str.all P a && Str.all P b.
Proof.
  induction a as [|x a IH]; simpl; [reflexivity|].
  rewrite IH; now rewrite andb_assoc.
Qed.

Lemma all_ext (P Q : ascii -> bool) (s : string) :
  (forall c, P c = Q c) -> Str.all P s = Str.all Q s.
Proof.
  intros H; induction s as [|c s IH]; simpl; [reflexivity | now rewrite H, IH].
Qed.

End StrFacts.

(** ** The regular-expression matcher *)

Lemma matches_sound (r : regex) (s m rest : string) :
  In (m, rest) (matches r s) -> s = m +:+ rest /\ lang r m.
Proof.
  revert s m rest; induction r as [|c|rs|r1 IH1 r2 IH2|r1 IH1 r2 IH2];
    intros s m rest Hin; simpl in Hin.
  - destruct Hin as [Heq|[]]; inversion Heq; subst; now split.
  - destruct s as [|a s']; [contradiction|].
    destruct (Ascii.eqb a c) eqn:E; [|contradiction].
    apply Ascii.eqb_eq in E; subst a.
    destruct Hin as [Heq|[]]; inversion Heq; subst; now split.
  - destruct s as [|a s']; [contradiction|].
    destruct (in_class rs a) eqn:E; [|contradiction].
    destruct Hin as [Heq|[]]; inversion Heq; subst; split; [reflexivity|].
    simpl; eauto.
  - apply in_flat_map in Hin as [[m1 s1] [H1 H2]].
    apply in_map_iff in H2 as [[m2 s2] [Heq H2]].
    inversion Heq; subst; clear Heq.
    apply IH1 in H1 as [-> L1]. apply IH2 in H2 as [-> L2].
    split; [now rewrite StrFacts.app_assoc|].
    simpl; eauto.
  - apply in_app_iff in Hin as [H|H]; [apply IH1 in H | apply IH2 in H];
      destruct H as [-> L]; (split; [reflexivity|]); simpl; tauto.
Qed.

Lemma matches_complete (r : regex) (m rest : string) :
  lang r m -> In (m, rest) (matches r (m +:+ rest)).
Proof.
  revert m rest; induction r as [|c|rs|r1 IH1 r2 IH2|r1 IH1 r2 IH2];
    intros m rest L; simpl in L.
  - subst; simpl; now left.
  - subst; simpl. rewrite Ascii.eqb_refl. now left.
  - destruct L as [a [-> Ha]]; simpl. rewrite Ha. now left.
  - destruct L as [m1 [m2 [-> [L1 L2]]]].
    simpl. apply in_flat_map. exists (m1, m2 +:+ rest); split.
    + rewrite StrFacts.app_assoc. now apply IH1.
    + apply in_map_iff. exists (m2, rest); split; [reflexivity | now apply IH2].
  - simpl; apply in_app_iff.
    destruct L as [L|L]; [left; now apply IH1 | right; now apply IH2].
Qed.

Lemma match_at_sound (r : regex) (s m : string) :
  match_at r s = Some m -> lang r m /\ exists rest, s = m +:+ rest.
Proof.
  unfold match_at; intros H.
  destruct (matches r s) as [|[m' rest] tl] eqn:E; [discriminate|].
  inversion H; subst m'.
  destruct (matches_sound r s m rest) as [Hs L]; [rewrite E; now left|].
  split; [exact L | now exists rest].
Qed.


(** [re_search] returns the match of the leftmost position that has one. *)
Lemma re_search_Some (r : regex) (s m : string) :
  re_search r s = Some m ->
  exists i, i <= String.length s /\
            match_at r (Str.drop i s) = Some m /\
            forall j, j < i -> match_at r (Str.drop j s) = None.
Proof.
  induction s as [|c s IH]; simpl; intros H.
  - destruct (match_at r "") eqn:E; [|discriminate].
    exists 0; repeat split; [lia | simpl; congruence | intros; lia].
  - destruct (match_at r (String c s)) eqn:E.
    + exists 0; repeat split; [lia | simpl; congruence | intros; lia].
    + destruct (IH H) as [i [Hi [Hm Hn]]].
      exists (S i); repeat split; [lia | exact Hm |].
      intros [|j] Hj; [exact E | apply Hn; lia].
Qed.

Lemma re_search_leftmost (r : regex) (s m : string) (i : nat) :
  match_at r (Str.drop i s) = Some m ->
  (forall j, j < i -> match_at r (Str.drop j s) = None) ->
  re_search r s = Some m.
Proof.
  revert s; induction i as [|i IH]; intros s Hm Hn.
  - simpl in Hm. destruct s; simpl; now rewrite Hm.
  - assert (H0 : match_at r s = None) by (apply (Hn 0); lia).
    destruct s as [|c s]; simpl in Hm.
    + simpl. now rewrite H0 in Hm.
    + simpl. rewrite H0. apply IH; [exact Hm|].
      intros j Hj. apply (Hn (S j)). lia.
Qed.


Lemma re_search_sound (r : regex) (s m : string) :
  re_search r s = Some m ->
  lang r m /\ exists pre post, s = pre +:+ m +:+ post.
Proof.
  intros H. apply re_search_Some in H as [i [Hi [Hm _]]].
  apply match_at_sound in Hm as [L [rest Hr]].
  split; [exact L|].
  exists (Str.take i s), rest.
  rewrite <- Hr. symmetry. apply StrFacts.take_drop.
Qed.


(** ** The language of the default pattern *)

Lemma lang_Lit (w m : string) : lang (Lit w) m <-> m = w.
Proof.
  revert m; induction w as [|c w IH]; intros m; simpl; [tauto|].
  split.
  - intros [m1 [m2 [-> [-> L]]]]. apply IH in L. now subst.
  - intros ->. exists (String c ""), w. repeat split. now apply IH.
Qed.

Lemma lang_Rep_Cls (rs : list (ascii * ascii)) (n : nat) (m : string) :
  lang (Rep (Cls rs) n) m <->
  String.length m = n /\ Str.all (in_class rs) m = true.
Proof.
  revert m; induction n as [|n IH]; intros m; simpl.
  - split; [intros ->; now split | intros [H _]; now destruct m].
  - split.
    + intros [m1 [m2 [-> [[a [-> Ha]] L]]]]. apply IH in L as [Hl Hall].
      simpl. rewrite Ha, Hall, Hl. now split.
    + intros [Hl Hall]. destruct m as [|a m]; [discriminate|].
      simpl in Hl, Hall. apply andb_prop in Hall as [Ha Hall].
      exists (String a ""), m. repeat split.
      * now exists a.
      * apply IH. split; [lia | exact Hall].
Qed.

(** When the left part of a concatenation has a fixed width, the text
    splits at that width. *)
Lemma lang_Seq_width (r1 r2 : regex) (n : nat) (m : string) :
  (forall x, lang r1 x -> String.length x = n) ->
  lang (Seq r1 r2) m <-> lang r1 (Str.take n m) /\ lang r2 (Str.drop n m).
Proof.
  intros W; simpl; split.
  - intros [m1 [m2 [-> [L1 L2]]]].
    rewrite <- (W m1 L1), StrFacts.take_app, StrFacts.drop_app. now split.
  - intros [L1 L2]. exists (Str.take n m), (Str.drop n m).
    now rewrite StrFacts.take_drop.
Qed.

Lemma in_class_digit (c : ascii) : in_class [("0", "9")%char] c = is_digit c.
Proof. unfold in_class, in_range, is_digit; simpl. now rewrite orb_false_r. Qed.

Lemma in_class_upper_alnum (c : ascii) :
  in_class [("A", "Z"); ("0", "9")]%char c = is_upper_alnum c.
Proof.
  unfold in_class, in_range, is_upper_alnum, is_upper, is_digit; simpl.
  now rewrite orb_false_r.
Qed.

Lemma lang_digits (n : nat) (m : string) :
  lang (Rep digit n) m <-> String.length m = n /\ Str.all is_digit m = true.
Proof.
  unfold digit. rewrite lang_Rep_Cls.
  now rewrite (StrFacts.all_ext _ _ m in_class_digit).
Qed.

Lemma lang_upper_alnums (n : nat) (m : string) :
  lang (Rep upper_alnum n) m <->
  String.length m = n /\ Str.all is_upper_alnum m = true.
Proof.
  unfold upper_alnum. rewrite lang_Rep_Cls.
  now rewrite (StrFacts.all_ext _ _ m in_class_upper_alnum).
Qed.

Lemma lang_Lit_width (w x : string) : lang (Lit w) x -> String.length x = String.length w.
Proof. intros H; apply lang_Lit in H; now subst. Qed.

Lemma all_take_drop (P : ascii -> bool) (n : nat) (s : string) :
  Str.all P s = Str.all P (Str.take n s) && Str.all P (Str.drop n s).
Proof. now rewrite <- StrFacts.all_app, StrFacts.take_drop. Qed.

Lemma lang_isbn13 (m : string) :
  lang (Seq (Lit "978") (Rep digit 10)) m <-> isbn13_shape m = true.
Proof.
  rewrite (lang_Seq_width _ _ 3) by (apply lang_Lit_width).
  rewrite lang_Lit, lang_digits, StrFacts.length_drop.
  unfold isbn13_shape. rewrite !andb_true_iff, Nat.eqb_eq, String.eqb_eq.
  rewrite (all_take_drop is_digit 3 m).
  split.
  - intros [Ht [Hl Ha]]. rewrite Ht, Ha. repeat split; lia.
  - intros [[Hl Ht] Ha]. rewrite Ht in Ha. simpl in Ha.
    repeat split; [exact Ht | lia | exact Ha].
Qed.

Lemma lang_asin (m : string) :
  lang (Seq (Lit "B") (Rep upper_alnum 9)) m <-> asin_shape m = true.
Proof.
  rewrite (lang_Seq_width _ _ 1) by (apply lang_Lit_width).
  rewrite lang_Lit, lang_upper_alnums, StrFacts.length_drop.
  unfold asin_shape. rewrite !andb_true_iff, Nat.eqb_eq, String.eqb_eq.
  split.
  - intros [Ht [Hl Ha]]. repeat split; [lia | exact Ht | exact Ha].
  - intros [[Hl Ht] Ha]. repeat split; [exact Ht | lia | exact Ha].
Qed.

Lemma lang_isbn10 (m : string) :
  lang (Seq (Rep digit 9) (Rep upper_alnum 1)) m <-> isbn10_shape m = true.
Proof.
  rewrite (lang_Seq_width _ _ 9) by (intros x Hx; now apply lang_digits in Hx).
  rewrite lang_digits, lang_upper_alnums, StrFacts.length_drop.
  unfold isbn10_shape. rewrite !andb_true_iff, Nat.eqb_eq.
  split.
  - intros [[Hl1 Ha1] [Hl2 Ha2]]. repeat split; [lia | exact Ha1 | exact Ha2].
  - intros [[Hl Ha1] Ha2]. repeat split; try assumption; [|lia].
    apply StrFacts.length_take; lia.
Qed.

Lemma lang_default_regex (m : string) :
  lang default_regex m <-> id_shape m = true.
Proof.
  unfold default_regex, id_shape.
  change (lang (Alt (Alt ?a ?b) ?c) m) with ((lang a m \/ lang b m) \/ lang c m).
  rewrite lang_isbn13, lang_asin, lang_isbn10, !orb_true_iff. tauto.
Qed.

Lemma id_shape_length (m : string) :
  id_shape m = true -> String.length m = 10 \/ String.length m = 13.
Proof.
  unfold id_shape, isbn13_shape, asin_shape, isbn10_shape.
  rewrite !orb_true_iff, !andb_true_iff, !Nat.eqb_eq. tauto.
Qed.

(** ** Priority of the alternatives *)

Lemma matches_det (r : regex) (s : string) :
  det r = true -> length (matches r s) <= 1.
Proof.
  revert s; induction r as [|c|rs|r1 IH1 r2 IH2|r1 IH1 r2 IH2]; intros s D; simpl in *.
  - lia.
  - destruct s as [|a s]; [simpl; lia|]. destruct (Ascii.eqb a c); simpl; lia.
  - destruct s as [|a s]; [simpl; lia|]. destruct (in_class rs a); simpl; lia.
  - apply andb_prop in D as [D1 D2].
    specialize (IH1 s D1).
    destruct (matches r1 s) as [|[m1 s1] [|? ?]]; simpl in *; try lia.
    rewrite app_nil_r, length_map. now apply IH2.
  - discriminate.
Qed.

Lemma matches_det_lang (r : regex) (m rest : string) :
  det r = true -> lang r m -> matches r (m +:+ rest) = [(m, rest)].
Proof.
  intros D L.
  pose proof (matches_det r (m +:+ rest) D) as Hlen.
  pose proof (matches_complete r m rest L) as Hin.
  destruct (matches r (m +:+ rest)) as [|p [|? ?]]; simpl in *; try lia.
  destruct Hin as [->|[]]. reflexivity.
Qed.

Lemma match_at_isbn13 (s post : string) :
  isbn13_shape s = true -> match_at default_regex (s +:+ post) = Some s.
Proof.
  intros H. apply lang_isbn13 in H.
  unfold match_at, default_regex.
  change (matches (Alt (Alt ?a ?b) ?c) ?x) with ((matches a x ++ matches b x) ++ matches c x).
  now rewrite (matches_det_lang (Seq (Lit "978") (Rep digit 10)) s post eq_refl H).
Qed.

Lemma match_at_asin (s post : string) :
  asin_shape s = true -> match_at default_regex (s +:+ post) = Some s.
Proof.
  intros H.
  assert (Hb : exists t, s = String "B" t).
  { unfold asin_shape in H. rewrite !andb_true_iff, String.eqb_eq in H.
    destruct H as [[_ Ht] _]. destruct s as [|c t]; [discriminate|].
    simpl in Ht. inversion Ht. now exists t. }
  apply lang_asin in H.
  unfold match_at, default_regex.
  change (matches (Alt (Alt ?a ?b) ?c) ?x) with ((matches a x ++ matches b x) ++ matches c x).
  rewrite (matches_det_lang (Seq (Lit "B") (Rep upper_alnum 9)) s post eq_refl H).
  destruct Hb as [t ->]. reflexivity.
Qed.

Example search_isbn :
  re_search default_regex "http://example.com/9780143127741" = Some "9780143127741".
Proof. vm_compute. reflexivity. Qed.

Example search_leftmost :
  re_search default_regex "19781234567890" = Some "1978123456".
Proof. vm_compute. reflexivity. Qed.

Example search_lower_case : re_search default_regex "b00abcdefg" = None.
Proof. vm_compute. reflexivity. Qed.

(** ** The extractor loop *)

Lemma asinisbns_loop_Ok (exp : regex) (ll acc out : list (string * string)) :
  asinisbns_loop exp ll acc = Ok out ->
  exists ids, out = acc ++ ids /\ Forall2 (extracted exp) ll ids.
Proof.
  revert acc; induction ll as [|[link url] ll IH]; intros acc H; simpl in H.
  - inversion H; subst. exists []. rewrite app_nil_r. split; [reflexivity | constructor].
  - destruct (re_search exp url) as [m|] eqn:E; simpl in H; [|discriminate].
    apply IH in H as [ids [-> F]].
    exists ((link, m) :: ids). rewrite <- app_assoc. split; [reflexivity|].
    constructor; [now split | exact F].
Qed.

Lemma asinisbns_loop_Forall2 (exp : regex) (ll ids acc : list (string * string)) :
  Forall2 (extracted exp) ll ids -> asinisbns_loop exp ll acc = Ok (acc ++ ids).
Proof.
  intros F; revert acc; induction F as [|[link url] [link' id] ll ids [Hl Hs] F IH];
    intros acc; simpl.
  - now rewrite app_nil_r.
  - simpl in Hl, Hs. subst link'. rewrite Hs. simpl.
    rewrite IH, <- app_assoc. reflexivity.
Qed.

(** A URL without a match makes the loop raise [TypeError]: the handler
    only continues on [IndexError]. *)
Lemma asinisbns_loop_Err (exp : regex) (ll acc : list (string * string)) :
  List.Exists (fun p => re_search exp (snd p) = None) ll ->
  asinisbns_loop exp ll acc = Err TypeError.
Proof.
  intros E; revert acc; induction E as [[link url] ll H|[link url] ll E IH];
    intros acc; simpl in *.
  - now rewrite H.
  - destruct (re_search exp url); simpl; [apply IH | reflexivity].
Qed.

Lemma Forall2_extracted_In_r (exp : regex) (ll ids : list (string * string)) q :
  Forall2 (extracted exp) ll ids -> In q ids ->
  exists p, In p ll /\ extracted exp p q.
Proof.
  induction 1 as [|p q' ll ids Hpq F IH]; intros Hin; [contradiction|].
  destruct Hin as [->|Hin].
  - exists p; split; [now left | exact Hpq].
  - destruct (IH Hin) as [p' [Hp' He]]. exists p'; split; [now right | exact He].
Qed.

Lemma Forall2_extracted_In_l (exp : regex) (ll ids : list (string * string)) p :
  Forall2 (extracted exp) ll ids -> In p ll ->
  exists q, In q ids /\ extracted exp p q.
Proof.
  induction 1 as [|p' q ll ids Hpq F IH]; intros Hin; [contradiction|].
  destruct Hin as [->|Hin].
  - exists q; split; [now left | exact Hpq].
  - destruct (IH Hin) as [q' [Hq' He]]. exists q'; split; [now right | exact He].
Qed.

(** ** The classifier loop *)

Lemma inputs_loop_spec (l a i : list (string * string)) :
  inputs_loop l a i =
  {| asin := a ++ List.filter (len_is 10) l; isbn := i ++ List.filter (len_is 13) l |}.
Proof.
  revert a i; induction l as [|[link id] l IH]; intros a i.
  - simpl. now rewrite !app_nil_r.
  - cbn [inputs_loop List.filter].
    replace (len_is 10 (link, id)) with (Nat.eqb (String.length id) 10) by reflexivity.
    replace (len_is 13 (link, id)) with (Nat.eqb (String.length id) 13) by reflexivity.
    destruct (Nat.eqb (String.length id) 10) eqn:E10.
    + apply Nat.eqb_eq in E10. rewrite E10. cbn [Nat.eqb].
      rewrite IH, <- app_assoc. reflexivity.
    + destruct (Nat.eqb (String.length id) 13) eqn:E13.
      * rewrite IH, <- app_assoc. reflexivity.
      * apply IH.
Qed.

Lemma get_inputs_spec (l : list (string * string)) (names : Names) :
  get_inputs l names =
  {| asin := List.filter (len_is 10) l; isbn := List.filter (len_is 13) l |}.
Proof. unfold get_inputs. now rewrite inputs_loop_spec. Qed.

(** ** Identifier Extractor and Classifier: the claims *)

(** C1 (the code departs from the claim).  A pair whose resolved URL has no
    match is not dropped: [re.search] returns [None], subscripting it
    raises [TypeError], and the handler of the loop catches [IndexError]
    only.  So the extractor raises instead of continuing with the
    remaining pairs, here with a second pair that does have a match. *)
Theorem extractor_no_match_raises :
  re_search (regex_str names) "https://example.com/" = None /\
  re_search (regex_str names) "http://example.com/9780143127741" = Some "9780143127741" /\
  get_asinisbns [("http://x/1", "https://example.com/");
                 ("http://x/2", "http://example.com/9780143127741")] names
  = Err TypeError.
Proof. repeat split; vm_compute; reflexivity. Qed.



(** C4.  The classifier sends a pair to the ASIN group exactly when its
    identifier has length 10, to the ISBN group exactly when it has length
    13, and drops it otherwise; each group is the input filtered by that
    test, so it keeps the input order. *)
Theorem get_inputs_partition (input_list : list (string * string)) (names : Names) :
  asin (get_inputs input_list names) = List.filter (len_is 10) input_list /\
  isbn (get_inputs input_list names) = List.filter (len_is 13) input_list /\
  forall link id, In (link, id) input_list ->
    (String.length id = 10 /\
     In (link, id) (asin (get_inputs input_list names)) /\
     ~ In (link, id) (isbn (get_inputs input_list names))) \/
    (String.length id = 13 /\
     ~ In (link, id) (asin (get_inputs input_list names)) /\
     In (link, id) (isbn (get_inputs input_list names))) \/
    (String.length id <> 10 /\ String.length id <> 13 /\
     ~ In (link, id) (asin (get_inputs input_list names)) /\
     ~ In (link, id) (isbn (get_inputs input_list names))).
Proof.
  rewrite get_inputs_spec; simpl.
  split; [reflexivity|]. split; [reflexivity|].
  intros link id Hin.
  rewrite !filter_In. unfold len_is; simpl.
  rewrite !Nat.eqb_eq.
  destruct (Nat.eq_dec (String.length id) 10) as [E10|N10];
    [|destruct (Nat.eq_dec (String.length id) 13) as [E13|N13]].
  - left. repeat split; try assumption. intros [_ H]. lia.
  - right; left. repeat split; try assumption. intros [_ H]. lia.
  - right; right. repeat split; try assumption; intros [_ H]; lia.
Qed.

(** C5, as stated, fails: the URL below contains a thirteen-digit text
    starting with 978, yet the search returns the leftmost match, a
    ten-character text that starts earlier, and the link lands in the ASIN
    group. *)
Lemma isbn_in_url_classified_asin :
  isbn13_shape "9781234567890" = true /\
  Str.contains "9781234567890" "https://www.amazon.com/dp/1234567890?isbn=9781234567890" = true /\
  exists l2,
    get_asinisbns [("http://x/1", "https://www.amazon.com/dp/1234567890?isbn=9781234567890")] names
    = Ok l2 /\
    isbn (get_inputs l2 names) = [] /\
    asin (get_inputs l2 names) = [("http://x/1", "1234567890")].
Proof.
  split; [vm_compute; reflexivity|]. split; [vm_compute; reflexivity|].
  exists [("http://x/1", "1234567890")]. repeat split; vm_compute; reflexivity.
Qed.

(** C5, amended.  Among the pairs the extractor accepts, a link whose
    resolved URL contains a thirteen-digit text starting with 978 at a
    place before which no match of the pattern starts is classified into
    the ISBN group with that text; one whose resolved URL contains B
    followed by nine upper-case letters or digits at such a place is
    classified into the ASIN group with that text. *)
Theorem leftmost_match_classified
    (longlink_list l2 : list (string * string)) (link pre s post : string) :
  get_asinisbns longlink_list names = Ok l2 ->
  In (link, pre +:+ s +:+ post) longlink_list ->
  (forall j, j < String.length pre ->
     match_at default_regex (Str.drop j (pre +:+ s +:+ post)) = None) ->
  (isbn13_shape s = true -> In (link, s) (isbn (get_inputs l2 names))) /\
  (asin_shape s = true -> In (link, s) (asin (get_inputs l2 names))).
Proof.
  intros Hok Hin Hleft.
  apply asinisbns_loop_Ok in Hok as [ids [-> F]]. simpl.
  destruct (Forall2_extracted_In_l _ _ _ _ F Hin) as [[link' id] [Hq [Hl Hs]]].
  simpl in Hl, Hs. subst link'.
  rewrite get_inputs_spec; simpl.
  split; intros Hshape.
  - assert (Hm : re_search default_regex (pre +:+ s +:+ post) = Some s).
    { apply (re_search_leftmost _ _ _ (String.length pre)); [|exact Hleft].
      rewrite StrFacts.drop_app. now apply match_at_isbn13. }
    rewrite Hm in Hs. inversion Hs; subst id.
    apply filter_In. split; [exact Hq|].
    unfold isbn13_shape in Hshape. rewrite !andb_true_iff in Hshape.
    unfold len_is; simpl. tauto.
  - assert (Hm : re_search default_regex (pre +:+ s +:+ post) = Some s).
    { apply (re_search_leftmost _ _ _ (String.length pre)); [|exact Hleft].
      rewrite StrFacts.drop_app. now apply match_at_asin. }
    rewrite Hm in Hs. inversion Hs; subst id.
    apply filter_In. split; [exact Hq|].
    unfold asin_shape in Hshape. rewrite !andb_true_iff in Hshape.
    unfold len_is; simpl. tauto.
Qed.

Lemma leftmost_match_classified_witness :
  In ("http://x/1", "9780143127741")
     (isbn (get_inputs [("http://x/1", "9780143127741")] names)) /\
  In ("http://x/2", "B00ABCDEFG")
     (asin (get_inputs [("http://x/2", "B00ABCDEFG")] names)).
Proof.
  split.
  - apply (leftmost_match_classified
             [("http://x/1", "http://example.com/9780143127741")]
             [("http://x/1", "9780143127741")]
             "http://x/1" "http://example.com/" "9780143127741" "").
    + vm_compute; reflexivity.
    + left; reflexivity.
    + intros j Hj.
      do 19 (destruct j as [|j]; [vm_compute; reflexivity|]).
      simpl in Hj; lia.
    + vm_compute; reflexivity.
  - apply (leftmost_match_classified
             [("http://x/2", "https://amzn.com/dp/B00ABCDEFG?tag=x")]
             [("http://x/2", "B00ABCDEFG")]
             "http://x/2" "https://amzn.com/dp/" "B00ABCDEFG" "?tag=x").
    + vm_compute; reflexivity.
    + left; reflexivity.
    + intros j Hj.
      do 20 (destruct j as [|j]; [vm_compute; reflexivity|]).
      simpl in Hj; lia.
    + vm_compute; reflexivity.
Defined.

(** C9.  With the default pattern every identifier the extractor returns
    has length 10 or 13, so the classifier drops none of them: each
    extracted pair is in the ASIN group or in the ISBN group. *)
Theorem extractor_lengths (longlink_list out : list (string * string)) :
  get_asinisbns longlink_list names = Ok out ->
  (forall link id, In (link, id) out ->
     String.length id = 10 \/ String.length id = 13) /\
  (forall p, In p out ->
     In p (asin (get_inputs out names)) \/ In p (isbn (get_inputs out names))).
Proof.
  intros Hok. apply asinisbns_loop_Ok in Hok as [ids [-> F]]. simpl.
  assert (Hlen : forall link id, In (link, id) ids ->
                 String.length id = 10 \/ String.length id = 13).
  { intros link id Hin.
    destruct (Forall2_extracted_In_r _ _ _ _ F Hin) as [[l u] [_ [_ Hs]]].
    simpl in Hs. apply re_search_sound in Hs as [L _].
    apply id_shape_length. now apply lang_default_regex. }
  split; [exact Hlen|].
  intros [link id] Hin. rewrite get_inputs_spec; simpl.
  rewrite !filter_In. unfold len_is; simpl. rewrite !Nat.eqb_eq.
  destruct (Hlen link id Hin); tauto.
Qed.

Lemma extractor_lengths_witness :
  get_asinisbns [("http://x/1", "http://example.com/9780143127741");
                 ("http://x/2", "https://amzn.com/dp/B00ABCDEFG?tag=x")] names
  = Ok [("http://x/1", "9780143127741"); ("http://x/2", "B00ABCDEFG")] /\
  (String.length "B00ABCDEFG" = 10 \/ String.length "B00ABCDEFG" = 13).
Proof.
  split; [reflexivity|].
  apply (proj1 (extractor_lengths
                  [("http://x/1", "http://example.com/9780143127741");
                   ("http://x/2", "https://amzn.com/dp/B00ABCDEFG?tag=x")]
                  [("http://x/1", "9780143127741"); ("http://x/2", "B00ABCDEFG")]
                  eq_refl)
               "http://x/2" "B00ABCDEFG").
  right; left; reflexivity.
Defined.

(** ** Link Resolver *)

Section ResolverFacts.

Variable head : nat -> string -> option string.

(** Where a pair of the output comes from: the accumulator, the cache, or
    a request of this run that succeeded. *)
Lemma long_links_loop_In (d : gmap string string) (ll : list string)
    (acc : list (string * string)) (reqs : list string) (l u : string) :
  In (l, u) (fst (long_links_loop head d ll acc reqs)) ->
  In (l, u) acc \/
  (In l ll /\
   (d !! l = Some u \/
    (d !! l = None /\
     exists n, length reqs <= n /\ n < length reqs + length ll /\
               head n l = Some u))).
Proof.
  revert acc reqs; induction ll as [|x ll IH]; intros acc reqs H; simpl in H.
  - now left.
  - destruct (d !! x) as [v|] eqn:Ex.
    + apply IH in H as [H|[Hin H]].
      * apply in_app_iff in H as [H|[H|[]]]; [now left|].
        inversion H; subst. right. split; [now left | now left].
      * right. split; [now right|].
        destruct H as [H|[Hn [n [H1 [H2 H3]]]]]; [now left|].
        right. split; [exact Hn|]. exists n. simpl. repeat split; try lia. exact H3.
    + destruct (head (length reqs) x) as [v|] eqn:Eh.
      * apply IH in H as [H|[Hin H]].
        -- apply in_app_iff in H as [H|[H|[]]]; [now left|].
           inversion H; subst. right. split; [now left|].
           right. split; [exact Ex|]. exists (length reqs). simpl.
           repeat split; try lia. exact Eh.
        -- right. split; [now right|].
           destruct H as [H|[Hn [n [H1 [H2 H3]]]]]; [now left|].
           right. split; [exact Hn|]. exists n.
           rewrite length_app in H1, H2. simpl in *. repeat split; try lia. exact H3.
      * apply IH in H as [H|[Hin H]]; [now left|].
        right. split; [now right|].
        destruct H as [H|[Hn [n [H1 [H2 H3]]]]]; [now left|].
        right. split; [exact Hn|]. exists n.
        rewrite length_app in H1, H2. simpl in *. repeat split; try lia. exact H3.
Qed.

(** Every link of the output is a link of the input. *)
Lemma long_links_loop_In_input (d : gmap string string) (ll : list string)
    (reqs : list string) (l u : string) :
  In (l, u) (fst (long_links_loop head d ll [] reqs)) -> In l ll.
Proof.
  intros H. apply long_links_loop_In in H as [[]|[H _]]. exact H.
Qed.

(** On links that are all cached the loop issues no request and returns
    the cached URLs. *)
Lemma long_links_loop_cached (d : gmap string string)
    (out acc : list (string * string)) (reqs : list string) :
  (forall l u, In (l, u) out -> d !! l = Some u) ->
  long_links_loop head d (List.map fst out) acc reqs = (acc ++ out, reqs).
Proof.
  revert acc; induction out as [|[l u] out IH]; intros acc H; simpl.
  - now rewrite app_nil_r.
  - rewrite (H l u) by now left.
    rewrite IH by (intros; apply H; now right).
    now rewrite <- app_assoc.
Qed.

End ResolverFacts.

Lemma fold_insert_lookup (l : list (string * string)) (d : gmap string string)
    (k v : string) :
  fold_left (fun d '(a, b) => <[a := b]> d) l d !! k = Some v ->
  In (k, v) l \/ d !! k = Some v.
Proof.
  revert d; induction l as [|[a b] l IH]; intros d H; simpl in H; [now right|].
  apply IH in H as [H|H]; [left; now right|].
  destruct (decide (a = k)) as [->|Hne].
  - rewrite lookup_insert_eq in H. inversion H; subst. left; now left.
  - rewrite lookup_insert_ne in H by exact Hne. now right.
Qed.

Lemma fold_insert_is_Some (l : list (string * string)) (d : gmap string string)
    (k : string) :
  is_Some (d !! k) ->
  is_Some (fold_left (fun d '(a, b) => <[a := b]> d) l d !! k).
Proof.
  revert d; induction l as [|[a b] l IH]; intros d H; simpl; [exact H|].
  apply IH. destruct (decide (a = k)) as [->|Hne].
  - rewrite lookup_insert_eq. eauto.
  - now rewrite lookup_insert_ne.
Qed.

Lemma fold_insert_In (l : list (string * string)) (d : gmap string string)
    (k v : string) :
  In (k, v) l ->
  is_Some (fold_left (fun d '(a, b) => <[a := b]> d) l d !! k).
Proof.
  revert d; induction l as [|[a b] l IH]; intros d H; simpl; [contradiction|].
  destruct H as [H|H].
  - inversion H; subst. apply fold_insert_is_Some. rewrite lookup_insert_eq. eauto.
  - now apply IH.
Qed.

Lemma dict_of_pairs_Some (l : list (string * string)) (k v : string) :
  dict_of_pairs l !! k = Some v -> In (k, v) l.
Proof.
  unfold dict_of_pairs. intros H. apply fold_insert_lookup in H as [H|H]; [exact H|].
  now rewrite lookup_empty in H.
Qed.

Lemma dict_of_pairs_In (l : list (string * string)) (k v : string) :
  In (k, v) l -> exists v', dict_of_pairs l !! k = Some v' /\ In (k, v') l.
Proof.
  intros H. destruct (fold_insert_In l ∅ k v H) as [v' Hv'].
  exists v'. split; [exact Hv' | now apply dict_of_pairs_Some].
Qed.

(** The world after a run, spelled out. *)
Lemma get_long_links_eq (head : nat -> string -> option string)
    (link_list : list string) (names : Names) (w : world) :
  get_long_links head link_list names w =
  let r := long_links_loop head (load_links names w) link_list [] (requests w) in
  (fst r,
   {| files := <[links names := dict_of_pairs (fst r) ∪ load_links names w]> (files w);
      requests := snd r;
      queries := queries w |}).
Proof.
  unfold get_long_links.
  now destruct (long_links_loop head (load_links names w) link_list [] (requests w)).
Qed.

Lemma load_links_after (head : nat -> string -> option string)
    (link_list : list string) (names : Names) (w : world) :
  load_links names (snd (get_long_links head link_list names w)) =
  dict_of_pairs (fst (get_long_links head link_list names w)) ∪ load_links names w.
Proof.
  rewrite get_long_links_eq. unfold load_links at 1. simpl.
  now rewrite lookup_insert_eq.
Qed.

Lemma files_after (head : nat -> string -> option string)
    (link_list : list string) (names : Names) (w : world) :
  files (snd (get_long_links head link_list names w)) !! links names =
  Some (dict_of_pairs (fst (get_long_links head link_list names w)) ∪ load_links names w).
Proof. rewrite get_long_links_eq. simpl. now rewrite lookup_insert_eq. Qed.

(** C8, as stated, fails: a link whose request fails is not cached, so the
    second run requests it again. *)
Lemma resolver_rerequests_failed_link :
  ~ resolver_idempotent head_down ["http://gone/"] names empty_world.
Proof.
  unfold resolver_idempotent. rewrite !get_long_links_eq. simpl.
  intros [_ H]. discriminate.
Qed.

(** With a request that fails in the first run and succeeds in the second
    the pairs differ as well. *)
Example resolver_second_run_differs :
  fst (get_long_links head_flaky ["http://x/1"] names empty_world) = [] /\
  fst (get_long_links head_flaky ["http://x/1"] names
         (snd (get_long_links head_flaky ["http://x/1"] names empty_world)))
  = [("http://x/1", "http://example.com/9780143127741")].
Proof. split; vm_compute; reflexivity. Qed.

(** Nor is it enough that no request fails: a link that occurs twice in
    the input and is not cached is requested twice, and when the two
    answers differ the cache keeps the later one. *)
Example resolver_repeated_link :
  List.map fst (fst (get_long_links head_moved ["http://x/1"; "http://x/1"] names empty_world))
  = ["http://x/1"; "http://x/1"] /\
  ~ resolver_idempotent head_moved ["http://x/1"; "http://x/1"] names empty_world.
Proof.
  split; [vm_compute; reflexivity|].
  unfold resolver_idempotent. rewrite !get_long_links_eq. vm_compute.
  intros [H _]. discriminate.
Qed.

(** C8, amended.  When the first run resolved every link of the input (its
    output has a pair for each input link, in order) and resolved equal
    links to equal URLs, the second run, started from the cache the first
    one persisted, returns the same pairs and issues no request. *)
Theorem resolver_idempotent_when_resolved (head : nat -> string -> option string)
    (link_list : list string) (names : Names) (w : world) :
  List.map fst (fst (get_long_links head link_list names w)) = link_list ->
  (forall l u u',
     In (l, u) (fst (get_long_links head link_list names w)) ->
     In (l, u') (fst (get_long_links head link_list names w)) -> u = u') ->
  resolver_idempotent head link_list names w.
Proof.
  intros Hall Hfun. unfold resolver_idempotent.
  pose proof (load_links_after head link_list names w) as Hload.
  destruct (get_long_links head link_list names w) as [out1 w1] eqn:E1.
  simpl in Hall, Hfun, Hload.
  rewrite get_long_links_eq. simpl.
  rewrite Hload. rewrite <- Hall.
  rewrite !long_links_loop_cached; [now split|].
  intros l u Hin; destruct (dict_of_pairs_In out1 l u Hin) as [u' [Hu' Hin']];
    apply lookup_union_Some_l; rewrite Hu'; f_equal; now apply (Hfun l).
Qed.

Lemma resolver_idempotent_when_resolved_witness :
  resolver_idempotent head_demo ["http://x/1"; "http://x/1"] names empty_world.
Proof.
  apply (resolver_idempotent_when_resolved head_demo ["http://x/1"; "http://x/1"]
                                           names empty_world).
  - vm_compute; reflexivity.
  - intros l u u' H1 H2. vm_compute in H1, H2.
    destruct H1 as [H1|[H1|[]]]; destruct H2 as [H2|[H2|[]]]; congruence.
Defined.

(** ** Metadata Fetcher *)

Lemma format_ValueError (template : string) (args : list string) (msg : string) :
  format template args = Err (ValueError msg) -> ValueError msg = single_rbrace.
Proof.
  remember (String.length template) as n eqn:Hn.
  revert template args Hn.
  induction n as [n IH] using lt_wf_ind; intros t args Hn H.
  destruct t as [|c t1]; [discriminate|]. simpl in H, Hn.
  destruct (Ascii.eqb c lbrace).
  - destruct t1 as [|c2 t']; [discriminate|]. simpl in Hn.
    destruct (Ascii.eqb c2 rbrace).
    + destruct args as [|a args']; [discriminate|].
      destruct (format t' args') eqn:E; [discriminate|].
      inversion H; subst. apply (IH (String.length t')) in E; [exact E | lia | reflexivity].
    + destruct (Ascii.eqb c2 lbrace); [|discriminate].
      destruct (format t' args) eqn:E; [discriminate|].
      inversion H; subst. apply (IH (String.length t')) in E; [exact E | lia | reflexivity].
  - destruct (Ascii.eqb c rbrace).
    + destruct t1 as [|c2 t']; [now inversion H|]. simpl in Hn.
      destruct (Ascii.eqb c2 rbrace); [|now inversion H].
      destruct (format t' args) eqn:E; [discriminate|].
      inversion H; subst. apply (IH (String.length t')) in E; [exact E | lia | reflexivity].
    + destruct (format t1 args) eqn:E; [discriminate|].
      inversion H; subst. apply (IH (String.length t1)) in E; [exact E | lia | reflexivity].
Qed.

Lemma recognized_tag (id_type : string) :
  existsb (String.eqb id_type) id_types = true <->
  id_type = "ASIN" \/ id_type = "ISBN_13".
Proof.
  unfold id_types; simpl. rewrite !orb_true_iff, !String.eqb_eq.
  intuition discriminate.
Qed.

(** C6.  With a type tag other than ASIN and ISBN_13 the fetcher raises
    the usage error and leaves the world as it was: no query is built or
    executed.  With one of the two tags it never raises that error. *)
Theorem get_metadata_tag_check (names : Names) (conn : connection)
    (id_tuple : list (string * string)) (id_type : string) (w : world) :
  (id_type <> "ASIN" -> id_type <> "ISBN_13" ->
   get_metadata names conn id_tuple id_type w = (Err usage_error, w)) /\
  (id_type = "ASIN" \/ id_type = "ISBN_13" ->
   fst (get_metadata names conn id_tuple id_type w) <> Err usage_error).
Proof.
  unfold get_metadata. split.
  - intros N1 N2.
    destruct (existsb (String.eqb id_type) id_types) eqn:E; [|reflexivity].
    apply recognized_tag in E. tauto.
  - intros Htag. apply recognized_tag in Htag. rewrite Htag. simpl negb. cbv iota.
    destruct (format (q names) [id_type; repr_tuple (List.map snd id_tuple)]) as [query|e] eqn:E.
    + unfold bind, read_sql, ret. simpl.
      destruct (conn _ query); simpl; discriminate.
    + unfold raise; simpl. intros He. inversion He; subst e.
      apply format_ValueError in E. discriminate.
Qed.

Lemma get_metadata_tag_check_witness :
  get_metadata names (fun _ _ => Some []) [("http://x/1", "012345678901")] "UPC" empty_world
  = (Err usage_error, empty_world) /\
  fst (get_metadata names (fun _ _ => Some []) [("http://x/1", "9780143127741")] "ISBN_13"
         empty_world) <> Err usage_error.
Proof.
  split.
  - apply (proj1 (get_metadata_tag_check names (fun _ _ => Some [])
                    [("http://x/1", "012345678901")] "UPC" empty_world));
      discriminate.
  - apply (proj2 (get_metadata_tag_check names (fun _ _ => Some [])
                    [("http://x/1", "9780143127741")] "ISBN_13" empty_world)).
    right; reflexivity.
Defined.

Lemma key_is_column (id_type id : string) (r : title_info) :
  key_is id_type id r = true -> column id_type r = Some id.
Proof.
  unfold key_is. destruct (column id_type r) as [k|]; [|discriminate].
  intros H. apply String.eqb_eq in H. now subst.
Qed.

Lemma In_merge (id_type : string) (df : list (string * string))
    (tbl : list title_info) (r : row) :
  In r (merge id_type df tbl) ->
  exists id, In (row_link r, id) df /\ In (row_info r) tbl /\
             column id_type (row_info r) = Some id.
Proof.
  unfold merge. intros H.
  apply in_flat_map in H as [[link id] [Hdf H]].
  apply in_map_iff in H as [ri [<- H]].
  apply filter_In in H as [Ht Hk]. simpl.
  exists id. repeat split; [exact Hdf | exact Ht | now apply key_is_column].
Qed.

Lemma get_metadata_Ok (names : Names) (conn : connection)
    (group : list (string * string)) (id_type : string) (w w' : world) (df : list row) :
  get_metadata names conn group id_type w = (Ok df, w') ->
  exists query tbl,
    format (q names) [id_type; repr_tuple (List.map snd group)] = Ok query /\
    conn (length (queries w)) query = Some tbl /\
    df = merge id_type group tbl /\ w' = logged query w.
Proof.
  unfold get_metadata.
  destruct (negb (existsb (String.eqb id_type) id_types)); [discriminate|].
  destruct (format (q names) [id_type; repr_tuple (List.map snd group)])
    as [query|e]; [|discriminate].
  unfold bind, read_sql, ret. simpl.
  destruct (conn _ query) as [tbl|] eqn:E; [|discriminate].
  intros H; inversion H; subst. now exists query, tbl.
Qed.

Lemma get_metadata_world (names : Names) (conn : connection)
    (group : list (string * string)) (id_type : string) (w : world) :
  snd (get_metadata names conn group id_type w) = w \/
  exists query,
    format (q names) [id_type; repr_tuple (List.map snd group)] = Ok query /\
    snd (get_metadata names conn group id_type w) = logged query w.
Proof.
  unfold get_metadata.
  destruct (negb (existsb (String.eqb id_type) id_types)); [now left|].
  destruct (format (q names) [id_type; repr_tuple (List.map snd group)])
    as [query|e]; [|now left].
  right. exists query. split; [reflexivity|].
  unfold bind, read_sql, ret. simpl.
  now destruct (conn _ query).
Qed.

Lemma repr_tuple_cons (x : string) (xs : list string) :
  repr_tuple (x :: xs) <> "()".
Proof.
  assert (Hq : repr_quote x <> ")"%char).
  { unfold repr_quote. destruct (has_char sq x && negb (has_char dq x)); discriminate. }
  intros H. apply Hq.
  destruct xs as [|y xs]; unfold repr_tuple, repr_str in H; cbn in H;
    now inversion H.
Qed.

(** C10.  Called with an empty group and one of the two recognized tags,
    the fetcher passes the tag check, renders the filter as the empty
    tuple and executes a statement that contains [in ()]; nothing in the
    fetcher rejects the empty group.  The orchestrator calls the fetcher
    under a non-emptiness test: every statement that [get] executes was
    built from a non-empty group, whose tuple is not rendered as [()]. *)
Theorem get_metadata_empty_group :
  (forall (conn : connection) (w : world) (id_type : string),
     id_type = "ASIN" \/ id_type = "ISBN_13" ->
     exists query,
       format (q names) [id_type; "()"] = Ok query /\
       Str.contains "in ()" query = true /\
       get_metadata names conn [] id_type w =
       (match conn (length (queries w)) query with
        | Some _ => Ok []
        | None => Err DatabaseError
        end, logged query w)) /\
  (forall (head : nat -> string -> option string) (connect : result connection)
          (link_list : list string) (nm : Names) (w : world) (query : string),
     In query (queries (snd (get head connect link_list nm w))) ->
     In query (queries w) \/
     exists (id_type : string) (group : list (string * string)),
       group <> [] /\ repr_tuple (List.map snd group) <> "()" /\
       format (q nm) [id_type; repr_tuple (List.map snd group)] = Ok query).
Proof.
  split.
  - intros conn w id_type Htag.
    assert (Hq : exists query, format (q names) [id_type; "()"] = Ok query /\
                               Str.contains "in ()" query = true).
    { destruct Htag as [->| ->]; eexists; split;
        try (vm_compute; reflexivity). }
    destruct Hq as [query [Hq Hc]]. exists query. split; [exact Hq|]. split; [exact Hc|].
    unfold get_metadata. apply recognized_tag in Htag. rewrite Htag.
    simpl negb. cbv iota. change (repr_tuple (List.map snd [])) with "()".
    rewrite Hq. unfold bind, read_sql, ret, logged. simpl.
    now destruct (conn _ query).
  - intros head connect link_list nm w query.
    unfold get. rewrite get_long_links_eq. cbv zeta.
    set (l1 := fst (long_links_loop head _ _ _ _)).
    set (w1 := {| files := _; requests := _; queries := queries w |}).
    assert (Hguard : forall (conn : connection) group id_type w0,
               let c := if Nat.ltb 0 (length group)
                        then get_metadata nm conn group id_type else ret [] in
               In query (queries (snd (c w0))) ->
               In query (queries w0) \/
               exists (id_type : string) (group : list (string * string)),
                 group <> [] /\ repr_tuple (List.map snd group) <> "()" /\
                 format (q nm) [id_type; repr_tuple (List.map snd group)] = Ok query).
    { intros conn group id_type w0 c Hin. subst c.
      destruct group as [|p group]; [now left|].
      change (Nat.ltb 0 (length (p :: group))) with true in Hin. cbv iota in Hin.
      destruct (get_metadata_world nm conn (p :: group) id_type w0) as [E|[q0 [Hq E]]];
        rewrite E in Hin; [now left|].
      simpl in Hin. apply in_app_iff in Hin as [Hin|[<-|[]]]; [now left|].
      right. exists id_type, (p :: group).
      split; [discriminate|]. split; [|exact Hq].
      apply repr_tuple_cons. }
    unfold bind, ret.
    destruct (get_asinisbns l1 nm) as [l2|e]; [|now left].
    destruct connect as [conn|e]; [|now left].
    destruct ((if Nat.ltb 0 (length (asin (get_inputs l2 nm)))
               then get_metadata nm conn (asin (get_inputs l2 nm)) "ASIN"
               else fun w => (Ok [], w)) w1) as [[df_asin|e] w2] eqn:Ea.
    + destruct ((if Nat.ltb 0 (length (isbn (get_inputs l2 nm)))
                 then get_metadata nm conn (isbn (get_inputs l2 nm)) "ISBN_13"
                 else fun w => (Ok [], w)) w2) as [[df_isbn|e] w3] eqn:Ei;
        simpl; intros Hin.
      all: pose proof (Hguard conn (isbn (get_inputs l2 nm)) "ISBN_13" w2) as Hi;
        unfold ret in Hi; simpl in Hi; rewrite Ei in Hi;
        destruct (Hi Hin) as [Hin2|?]; [|now right].
      all: pose proof (Hguard conn (asin (get_inputs l2 nm)) "ASIN" w1) as Ha;
        unfold ret in Ha; simpl in Ha; rewrite Ea in Ha;
        destruct (Ha Hin2) as [?|?]; [now left | now right].
    + simpl; intros Hin.
      pose proof (Hguard conn (asin (get_inputs l2 nm)) "ASIN" w1) as Ha.
      unfold ret in Ha; simpl in Ha; rewrite Ea in Ha.
      destruct (Ha Hin) as [?|?]; [now left | now right].
Qed.

(** ** Orchestrator *)


(** The scenario of the specification: one link, resolved to a URL that
    carries an ISBN, found in the warehouse. *)
Example scenario_isbn :
  fst (get head_demo (Ok conn_demo) ["http://x/1"] names empty_world) = Ok [row_demo] /\
  List.map (Str.contains "AND     ISBN_13 in ('9780143127741',)")
           (queries (snd (get head_demo (Ok conn_demo) ["http://x/1"] names empty_world)))
  = [true] /\
  requests (snd (get head_demo (Ok conn_demo) ["http://x/1"] names empty_world))
  = ["http://x/1"] /\
  load_links names (snd (get head_demo (Ok conn_demo) ["http://x/1"] names empty_world))
    !! "http://x/1" = Some "http://example.com/9780143127741".
Proof. repeat split; vm_compute; reflexivity. Qed.



(** * Further properties *)

(** ** Link Resolver *)

Section ResolverLoop.

Variable head : nat -> string -> option string.

(** The accumulator is only appended to. *)
Lemma long_links_loop_acc (d : gmap string string) (ll : list string)
    (acc : list (string * string)) (reqs : list string) :
  long_links_loop head d ll acc reqs =
  (acc ++ fst (long_links_loop head d ll [] reqs),
   snd (long_links_loop head d ll [] reqs)).
Proof.
  revert acc reqs; induction ll as [|x ll IH]; intros acc reqs; simpl.
  - now rewrite app_nil_r.
  - destruct (d !! x) as [v|].
    + rewrite (IH (acc ++ [(x, v)])), (IH [(x, v)]). simpl.
      now rewrite <- app_assoc.
    + destruct (head (length reqs) x) as [v|].
      * rewrite (IH (acc ++ [(x, v)])), (IH [(x, v)]). simpl.
        now rewrite <- app_assoc.
      * apply IH.
Qed.

Lemma long_links_loop_requests (d : gmap string string) (ll : list string)
    (acc : list (string * string)) (reqs : list string) :
  snd (long_links_loop head d ll acc reqs) = reqs ++ List.filter (uncached d) ll.
Proof.
  revert acc reqs; induction ll as [|x ll IH]; intros acc reqs; simpl.
  - now rewrite app_nil_r.
  - unfold uncached at 1. destruct (d !! x) as [v|]; [apply IH|].
    destruct (head (length reqs) x) as [v|]; rewrite IH, <- app_assoc; reflexivity.
Qed.

Lemma long_links_loop_sublist (d : gmap string string) (ll : list string)
    (reqs : list string) :
  sublist (List.map fst (fst (long_links_loop head d ll [] reqs))) ll.
Proof.
  revert reqs; induction ll as [|x ll IH]; intros reqs; simpl.
  - constructor.
  - destruct (d !! x) as [v|].
    + rewrite long_links_loop_acc. simpl. apply sublist_skip, IH.
    + destruct (head (length reqs) x) as [v|].
      * rewrite long_links_loop_acc. simpl. apply sublist_skip, IH.
      * apply sublist_cons, IH.
Qed.

Lemma long_links_loop_cached_In (d : gmap string string) (ll : list string)
    (reqs : list string) (l u : string) :
  In l ll -> d !! l = Some u ->
  In (l, u) (fst (long_links_loop head d ll [] reqs)).
Proof.
  revert reqs; induction ll as [|x ll IH]; intros reqs Hin Hd; [contradiction|].
  simpl. destruct Hin as [->|Hin].
  - rewrite Hd, long_links_loop_acc. simpl. now left.
  - destruct (d !! x) as [v|].
    + rewrite long_links_loop_acc. simpl. right. now apply IH.
    + destruct (head (length reqs) x) as [v|].
      * rewrite long_links_loop_acc. simpl. right. now apply IH.
      * now apply IH.
Qed.

End ResolverLoop.

(** A pair of the output that does not come from the accumulator comes
    from the cache or from a request that this run issued for its link
    and that succeeded. *)
Lemma long_links_loop_In_run (head : nat -> string -> option string)
    (d : gmap string string) (ll : list string)
    (acc : list (string * string)) (reqs : list string) (l u : string) :
  In (l, u) (fst (long_links_loop head d ll acc reqs)) ->
  In (l, u) acc \/ d !! l = Some u \/
  (d !! l = None /\
   exists n, length reqs <= n /\
             nth_error (snd (long_links_loop head d ll acc reqs)) n = Some l /\
             head n l = Some u).
Proof.
  revert acc reqs; induction ll as [|x ll IH]; intros acc reqs H; simpl in *.
  - now left.
  - destruct (d !! x) as [v|] eqn:Ex.
    + apply IH in H as [H|H]; [|now right].
      apply in_app_iff in H as [H|[H|[]]]; [now left|].
      inversion H; subst. right; now left.
    + assert (Hx : forall out,
                 nth_error (snd (long_links_loop head d ll out (reqs ++ [x])))
                           (length reqs) = Some x).
      { intros out. rewrite long_links_loop_requests, <- app_assoc.
        rewrite nth_error_app2 by lia. now rewrite Nat.sub_diag. }
      destruct (head (length reqs) x) as [v|] eqn:Eh.
      * apply IH in H as [H|[H|[Hn [n [H1 [H2 H3]]]]]].
        -- apply in_app_iff in H as [H|[H|[]]]; [now left|].
           inversion H; subst. right; right. split; [exact Ex|].
           exists (length reqs). split; [lia|]. split; [apply Hx | exact Eh].
        -- right; now left.
        -- right; right. split; [exact Hn|]. exists n.
           rewrite length_app in H1. simpl in H1. split; [lia|]. now split.
      * apply IH in H as [H|[H|[Hn [n [H1 [H2 H3]]]]]].
        -- now left.
        -- right; now left.
        -- right; right. split; [exact Hn|]. exists n.
           rewrite length_app in H1. simpl in H1. split; [lia|]. now split.
Qed.

(** C7, as stated, fails: the link below is not in the cache and is given
    twice; the request for its first occurrence fails, the request for its
    second occurrence succeeds, and the run returns a pair for the link
    and persists it in the cache. *)
Lemma repeated_link_resolved_after_failure :
  load_links names empty_world !! "http://x/1" = None /\
  nth_error (requests (snd (get_long_links head_flaky ["http://x/1"; "http://x/1"]
                                           names empty_world))) 0
  = Some "http://x/1" /\
  head_flaky 0 "http://x/1" = None /\
  In ("http://x/1", "http://example.com/9780143127741")
     (fst (get_long_links head_flaky ["http://x/1"; "http://x/1"] names empty_world)) /\
  load_links names (snd (get_long_links head_flaky ["http://x/1"; "http://x/1"]
                                        names empty_world)) !! "http://x/1"
  = Some "http://example.com/9780143127741".
Proof.
  repeat split; try (vm_compute; reflexivity).
  vm_compute. left; reflexivity.
Qed.

(** C7, amended.  A link that is not in the cache and for which every
    request that the run issues fails yields no pair, and the cache
    persisted by the run has no entry for it; every entry of the cache
    read at the start is in the persisted cache with the same URL.  The
    requests the run issues are those it appends to the request log. *)
Theorem failed_link_skipped (head : nat -> string -> option string)
    (link_list : list string) (names : Names) (w : world) (link : string) :
  load_links names w !! link = None ->
  (forall n, length (requests w) <= n ->
             nth_error (requests (snd (get_long_links head link_list names w))) n
             = Some link ->
             head n link = None) ->
  (forall url, ~ In (link, url) (fst (get_long_links head link_list names w))) /\
  exists link_dict,
    files (snd (get_long_links head link_list names w)) !! links names = Some link_dict /\
    link_dict !! link = None /\
    forall k v, load_links names w !! k = Some v -> link_dict !! k = Some v.
Proof.
  intros Hc Hfail.
  assert (Hout : forall url,
             ~ In (link, url) (fst (get_long_links head link_list names w))).
  { intros url Hin. rewrite get_long_links_eq in Hin, Hfail. simpl in Hin, Hfail.
    apply long_links_loop_In_run in Hin as [[]|[H|[_ [n [H1 [H2 H3]]]]]].
    - congruence.
    - rewrite (Hfail n H1 H2) in H3. discriminate. }
  split; [exact Hout|].
  exists (dict_of_pairs (fst (get_long_links head link_list names w)) ∪ load_links names w).
  split; [apply files_after|].
  split.
  - apply lookup_union_None. split; [|exact Hc].
    destruct (dict_of_pairs _ !! link) as [u|] eqn:E; [|reflexivity].
    apply dict_of_pairs_Some in E. now apply Hout in E.
  - intros k v Hk.
    destruct (dict_of_pairs (fst (get_long_links head link_list names w)) !! k)
      as [u|] eqn:E.
    * apply lookup_union_Some_l. rewrite E. f_equal.
      apply dict_of_pairs_Some in E. rewrite get_long_links_eq in E. simpl in E.
      apply long_links_loop_In in E as [[]|[_ [H|[H _]]]]; congruence.
    * rewrite lookup_union_r by exact E. exact Hk.
Qed.

(** Here the only request for the first link fails and the request for the
    second link, issued next, succeeds. *)
Lemma failed_link_skipped_witness :
  (forall url,
     ~ In ("http://x/1", url)
          (fst (get_long_links head_flaky ["http://x/1"; "http://x/2"] names empty_world))) /\
  exists link_dict,
    files (snd (get_long_links head_flaky ["http://x/1"; "http://x/2"] names empty_world))
      !! links names = Some link_dict /\
    link_dict !! "http://x/1" = None /\
    forall k v, load_links names empty_world !! k = Some v -> link_dict !! k = Some v.
Proof.
  apply (failed_link_skipped head_flaky ["http://x/1"; "http://x/2"] names
                             empty_world "http://x/1").
  - vm_compute; reflexivity.
  - intros n _ Hn. vm_compute in Hn.
    destruct n as [|[|n]]; [reflexivity | discriminate Hn | destruct n; discriminate Hn].
Defined.

(** X1.  The requests a run issues are exactly the links of the input that
    are not keys of the cache read at the start, in input order and once
    per occurrence: a cached link is never requested, and a link that is
    repeated in the input is requested each time, whether or not an
    earlier request for it succeeded. *)
Theorem requests_of_run (head : nat -> string -> option string)
    (link_list : list string) (names : Names) (w : world) :
  requests (snd (get_long_links head link_list names w)) =
  requests w ++ List.filter (uncached (load_links names w)) link_list.
Proof.
  rewrite get_long_links_eq. simpl. apply long_links_loop_requests.
Qed.

(** X2.  The links of the output are a subsequence of the input list (the
    pairs come in input order, at most one per occurrence), and a link
    that is in the cache is never dropped: it is returned with its cached
    URL. *)
Theorem output_in_input_order (head : nat -> string -> option string)
    (link_list : list string) (names : Names) (w : world) :
  sublist (List.map fst (fst (get_long_links head link_list names w))) link_list /\
  length (fst (get_long_links head link_list names w)) <= length link_list /\
  forall link url,
    In link link_list -> load_links names w !! link = Some url ->
    In (link, url) (fst (get_long_links head link_list names w)).
Proof.
  rewrite get_long_links_eq. simpl.
  pose proof (long_links_loop_sublist head (load_links names w) link_list (requests w)) as S.
  split; [exact S|]. split.
  - apply sublist_length in S. now rewrite length_map in S.
  - intros link url. apply long_links_loop_cached_In.
Qed.
Lemma fold_insert_notin (l : list (string * string)) (d : gmap string string)
    (k : string) :
  ~ In k (List.map fst l) ->
  fold_left (fun d '(a, b) => <[a := b]> d) l d !! k = d !! k.
Proof.
  revert d; induction l as [|[a b] l IH]; intros d H; simpl; [reflexivity|].
  simpl in H. rewrite IH by tauto.
  apply lookup_insert_ne. intros ->. tauto.
Qed.

Lemma dict_of_pairs_last (pre post : list (string * string)) (k v : string) :
  ~ In k (List.map fst post) ->
  dict_of_pairs (pre ++ (k, v) :: post) !! k = Some v.
Proof.
  intros H. unfold dict_of_pairs. rewrite fold_left_app. simpl.
  rewrite fold_insert_notin by exact H. apply lookup_insert_eq.
Qed.

Lemma all_cached_requests (d : gmap string string) (ll : list string) :
  (forall link, In link ll -> is_Some (d !! link)) ->
  List.filter (uncached d) ll = [].
Proof.
  induction ll as [|x ll IH]; intros H; simpl; [reflexivity|].
  unfold uncached at 1. destruct (H x (or_introl eq_refl)) as [v ->].
  apply IH. intros; apply H; now right.
Qed.

Lemma all_cached_links (head : nat -> string -> option string)
    (d : gmap string string) (ll : list string) (reqs : list string) :
  (forall link, In link ll -> is_Some (d !! link)) ->
  List.map fst (fst (long_links_loop head d ll [] reqs)) = ll.
Proof.
  revert reqs; induction ll as [|x ll IH]; intros reqs H; simpl; [reflexivity|].
  destruct (H x (or_introl eq_refl)) as [v ->].
  rewrite long_links_loop_acc. simpl. f_equal.
  apply IH. intros; apply H; now right.
Qed.

(** X3.  When every link of the input is a key of the cache, the run
    issues no request, returns one pair per input link with the cached
    URL, and persists a cache equal to the one it read: a run on a warm
    cache changes nothing but (re)writing the file. *)
Theorem warm_cache_run (head : nat -> string -> option string)
    (link_list : list string) (names : Names) (w : world) :
  (forall link, In link link_list -> is_Some (load_links names w !! link)) ->
  List.map fst (fst (get_long_links head link_list names w)) = link_list /\
  (forall link url,
     In (link, url) (fst (get_long_links head link_list names w)) ->
     load_links names w !! link = Some url) /\
  requests (snd (get_long_links head link_list names w)) = requests w /\
  load_links names (snd (get_long_links head link_list names w)) = load_links names w.
Proof.
  intros Hall.
  assert (Hpairs : forall link url,
             In (link, url) (fst (get_long_links head link_list names w)) ->
             load_links names w !! link = Some url).
  { intros link url Hin. rewrite get_long_links_eq in Hin. simpl in Hin.
    apply long_links_loop_In in Hin as [[]|[Hl [H|[Hn _]]]]; [exact H|].
    destruct (Hall link Hl) as [v Hv]. congruence. }
  split; [|split; [exact Hpairs|split]].
  - rewrite get_long_links_eq. simpl. now apply all_cached_links.
  - rewrite get_long_links_eq. simpl.
    rewrite long_links_loop_requests, all_cached_requests by exact Hall.
    apply app_nil_r.
  - rewrite load_links_after. apply map_eq. intros k.
    destruct (dict_of_pairs (fst (get_long_links head link_list names w)) !! k)
      as [v|] eqn:E.
    + rewrite (lookup_union_Some_l _ _ _ _ E).
      apply dict_of_pairs_Some in E. symmetry. now apply Hpairs.
    + now rewrite lookup_union_r.
Qed.

Lemma warm_cache_run_witness :
  fst (get_long_links head_down ["http://x/1"; "http://x/1"] names warm_world)
  = [("http://x/1", "http://example.com/9780143127741");
     ("http://x/1", "http://example.com/9780143127741")] /\
  requests (snd (get_long_links head_down ["http://x/1"; "http://x/1"] names warm_world))
  = requests warm_world.
Proof.
  split; [vm_compute; reflexivity|].
  apply (warm_cache_run head_down ["http://x/1"; "http://x/1"] names warm_world).
  intros link [<-|[<-|[]]]; exists "http://example.com/9780143127741";
    vm_compute; reflexivity.
Defined.

(** X4.  The cache a run persists has nothing but what the run read or
    resolved: each entry is an entry of the cache read at the start or a
    pair of the output.  For a link of the output it holds the URL of the
    link's last pair, so when two requests of one run answer a repeated
    link differently the later answer is the one cached. *)
Theorem persisted_cache (head : nat -> string -> option string)
    (link_list : list string) (names : Names) (w : world) :
  (forall k v,
     load_links names (snd (get_long_links head link_list names w)) !! k = Some v ->
     In (k, v) (fst (get_long_links head link_list names w)) \/
     load_links names w !! k = Some v) /\
  (forall pre link url post,
     fst (get_long_links head link_list names w) = pre ++ (link, url) :: post ->
     ~ In link (List.map fst post) ->
     load_links names (snd (get_long_links head link_list names w)) !! link = Some url).
Proof.
  rewrite load_links_after. split.
  - intros k v H. apply lookup_union_Some_raw in H as [H|[_ H]].
    + left. now apply dict_of_pairs_Some.
    + now right.
  - intros pre link url post E Hlast. rewrite E.
    apply lookup_union_Some_l. now apply dict_of_pairs_last.
Qed.

(** ** Identifier Extractor and Classifier *)

Lemma asinisbns_loop_Err_inv (exp : regex) (ll acc : list (string * string)) (e : exn) :
  asinisbns_loop exp ll acc = Err e ->
  e = TypeError /\ List.Exists (fun p => re_search exp (snd p) = None) ll.
Proof.
  revert acc; induction ll as [|[link url] ll IH]; intros acc H; simpl in H;
    [discriminate|].
  destruct (re_search exp url) as [m|] eqn:E; simpl in H.
  - apply IH in H as [-> Hex]. split; [reflexivity | now apply Exists_cons_tl].
  - inversion H; subst. split; [reflexivity|]. now apply Exists_cons_hd.
Qed.

Lemma Forall2_extracted_links (exp : regex) (ll ids : list (string * string)) :
  Forall2 (extracted exp) ll ids -> List.map fst ids = List.map fst ll.
Proof.
  induction 1 as [|p q ll ids [Hl _] F IH]; simpl; [reflexivity|].
  now rewrite Hl, IH.
Qed.

(** X5.  The extractor has two outcomes.  It returns a list exactly when
    every resolved URL has a match: the list then has one pair per input
    pair, with the same links in the same order, each with the first match
    of its URL.  It raises exactly when some resolved URL has no match,
    and the exception is always [TypeError]; no pair is ever skipped. *)
Theorem get_asinisbns_outcome (longlink_list : list (string * string)) (names : Names) :
  (forall out,
     get_asinisbns longlink_list names = Ok out <->
     Forall2 (extracted (regex_str names)) longlink_list out) /\
  (forall out,
     get_asinisbns longlink_list names = Ok out ->
     List.map fst out = List.map fst longlink_list) /\
  (forall e,
     get_asinisbns longlink_list names = Err e <->
     e = TypeError /\
     List.Exists (fun p => re_search (regex_str names) (snd p) = None) longlink_list).
Proof.
  unfold get_asinisbns. split; [|split].
  - intros out. split.
    + intros H. apply asinisbns_loop_Ok in H as [ids [-> F]]. exact F.
    + intros F. now apply (asinisbns_loop_Forall2 _ _ _ []).
  - intros out H. apply asinisbns_loop_Ok in H as [ids [-> F]].
    now apply Forall2_extracted_links in F.
  - intros e. split.
    + apply asinisbns_loop_Err_inv.
    + intros [-> Hex]. now apply asinisbns_loop_Err.
Qed.

(** X6.  Extractor and classifier together, with the default pattern: an
    identifier of the ISBN group is thirteen digits starting with 978, and
    an identifier of the ASIN group is B followed by nine upper-case
    letters or digits, or nine digits followed by one upper-case letter or
    digit.  So a ten-character ISBN found in a URL is filed, and later
    looked up, as an ASIN. *)
Theorem groups_by_shape (longlink_list l2 : list (string * string)) :
  get_asinisbns longlink_list names = Ok l2 ->
  (forall link id, In (link, id) (isbn (get_inputs l2 names)) ->
     isbn13_shape id = true) /\
  (forall link id, In (link, id) (asin (get_inputs l2 names)) ->
     asin_shape id || isbn10_shape id = true).
Proof.
  intros Hok. apply asinisbns_loop_Ok in Hok as [ids [-> F]]. simpl.
  assert (Hshape : forall link id, In (link, id) ids -> id_shape id = true).
  { intros link id Hin.
    destruct (Forall2_extracted_In_r _ _ _ _ F Hin) as [[l u] [_ [_ Hs]]].
    simpl in Hs. apply re_search_sound in Hs as [L _].
    now apply lang_default_regex. }
  rewrite get_inputs_spec; simpl.
  split; intros link id Hin; apply filter_In in Hin as [Hin Hlen];
    apply Hshape in Hin; unfold len_is in Hlen; simpl in Hlen;
    apply Nat.eqb_eq in Hlen; unfold id_shape in Hin;
    rewrite !orb_true_iff in Hin; rewrite ?orb_true_iff.
  - destruct Hin as [[H|H]|H]; [exact H| |];
      unfold asin_shape, isbn10_shape in H;
      rewrite !andb_true_iff, Nat.eqb_eq in H; lia.
  - destruct Hin as [[H|H]|H]; [|now left|now right].
    unfold isbn13_shape in H. rewrite !andb_true_iff, Nat.eqb_eq in H. lia.
Qed.

Lemma groups_by_shape_witness :
  get_asinisbns [("http://x/1", "https://www.amazon.com/dp/014312774X")] names
  = Ok [("http://x/1", "014312774X")] /\
  asin_shape "014312774X" || isbn10_shape "014312774X" = true.
Proof.
  split; [reflexivity|].
  apply (proj2 (groups_by_shape
                  [("http://x/1", "https://www.amazon.com/dp/014312774X")]
                  [("http://x/1", "014312774X")] eq_refl)
               "http://x/1" "014312774X").
  left; reflexivity.
Defined.

(** X7.  The classifier neither loses nor duplicates a pair: the ASIN
    group, the ISBN group and the dropped pairs (those whose identifier
    has neither length 10 nor length 13) together are a rearrangement of
    the input. *)
Theorem get_inputs_permutation (input_list : list (string * string)) (names : Names) :
  Permutation input_list
    (asin (get_inputs input_list names) ++ isbn (get_inputs input_list names) ++
     List.filter len_other input_list).
Proof.
  rewrite get_inputs_spec; simpl.
  induction input_list as [|[link id] l IH]; [constructor|].
  cbn [List.filter].
  replace (len_other (link, id))
    with (negb (Nat.eqb (String.length id) 10) && negb (Nat.eqb (String.length id) 13))
    by reflexivity.
  replace (len_is 10 (link, id)) with (Nat.eqb (String.length id) 10) by reflexivity.
  replace (len_is 13 (link, id)) with (Nat.eqb (String.length id) 13) by reflexivity.
  destruct (Nat.eqb (String.length id) 10) eqn:E10.
  - apply Nat.eqb_eq in E10. rewrite E10. cbn.
    apply Permutation_cons; [reflexivity | exact IH].
  - destruct (Nat.eqb (String.length id) 13) eqn:E13; cbn.
    + apply Permutation_cons_app. exact IH.
    + rewrite (app_assoc (List.filter (len_is 10) l)).
      apply Permutation_cons_app. rewrite <- app_assoc. exact IH.
Qed.


(** ** Metadata Fetcher *)

Lemma In_merge_intro (id_type link id : string) (df : list (string * string))
    (tbl : list title_info) (r : title_info) :
  In (link, id) df -> In r tbl -> column id_type r = Some id ->
  In {| row_link := link; row_info := r |} (merge id_type df tbl).
Proof.
  intros Hdf Ht Hk. unfold merge. apply in_flat_map.
  exists (link, id). split; [exact Hdf|].
  apply in_map_iff. exists r. split; [reflexivity|].
  apply filter_In. split; [exact Ht|].
  unfold key_is. rewrite Hk. apply String.eqb_refl.
Qed.

(** X8.  When the fetcher returns a table, it executed one statement, and
    the table is the inner join of the group with the warehouse's answer
    on the tag's column: a row (link, record) is in it exactly when the
    group has the link with some identifier, the answer has the record,
    and the record's column holds that identifier.  An identifier without
    a record gives no row; a record shared by two links gives a row for
    each. *)
Theorem get_metadata_join (names : Names) (conn : connection)
    (group : list (string * string)) (id_type : string) (w w' : world) (df : list row) :
  get_metadata names conn group id_type w = (Ok df, w') ->
  (id_type = "ASIN" \/ id_type = "ISBN_13") /\
  exists query tbl,
    conn (length (queries w)) query = Some tbl /\
    w' = logged query w /\
    forall link r,
      In {| row_link := link; row_info := r |} df <->
      exists id, In (link, id) group /\ In r tbl /\ column id_type r = Some id.
Proof.
  intros H. split.
  - apply recognized_tag. unfold get_metadata in H.
    destruct (existsb (String.eqb id_type) id_types); [reflexivity | discriminate].
  - apply get_metadata_Ok in H as [query [tbl [_ [Hc [-> ->]]]]].
    exists query, tbl. split; [exact Hc|]. split; [reflexivity|].
    intros link r. split.
    + intros Hin. apply In_merge in Hin. exact Hin.
    + intros [id [Hg [Ht Hk]]]. now apply (In_merge_intro _ _ id).
Qed.

Lemma get_metadata_join_witness :
  get_metadata names conn_demo [("http://x/1", "9780143127741")] "ISBN_13" empty_world
  = (Ok [row_demo], logged (statement "ISBN_13" ["9780143127741"]) empty_world) /\
  ("ISBN_13" = "ASIN" \/ "ISBN_13" = "ISBN_13").
Proof.
  assert (H : get_metadata names conn_demo [("http://x/1", "9780143127741")] "ISBN_13"
                empty_world
              = (Ok [row_demo], logged (statement "ISBN_13" ["9780143127741"]) empty_world))
    by (vm_compute; reflexivity).
  split; [exact H|].
  exact (proj1 (get_metadata_join names conn_demo [("http://x/1", "9780143127741")]
                  "ISBN_13" empty_world _ [row_demo] H)).
Defined.

Lemma format_default_q (a b : string) :
  format default_q [a; b] = Ok (q_head +:+ a +:+ " in " +:+ b +:+ q_tail).
Proof. vm_compute. reflexivity. Qed.

Lemma get_metadata_default (conn : connection) (group : list (string * string))
    (id_type : string) (w : world) :
  id_type = "ASIN" \/ id_type = "ISBN_13" ->
  get_metadata names conn group id_type w =
  (match conn (length (queries w)) (statement id_type (List.map snd group)) with
   | Some tbl => Ok (merge id_type group tbl)
   | None => Err DatabaseError
   end,
   logged (statement id_type (List.map snd group)) w).
Proof.
  intros Htag. apply recognized_tag in Htag.
  unfold get_metadata. rewrite Htag. simpl negb. cbv iota.
  change (q names) with default_q. rewrite format_default_q.
  unfold bind, read_sql, ret, logged, statement. simpl.
  now destruct (conn _ _).
Qed.

(** X9.  With the default template and a recognized tag the fetcher
    executes exactly one statement, the template with the tag and the
    rendered tuple of the group's identifiers in its two fields.  If the
    warehouse answers, the result is the join with the answer; if it
    fails, the fetcher raises that failure.  Either way the statement is
    the only change to the world. *)
Theorem get_metadata_statement (conn : connection) (group : list (string * string))
    (id_type : string) (w : world) :
  id_type = "ASIN" \/ id_type = "ISBN_13" ->
  get_metadata names conn group id_type w =
  (match conn (length (queries w)) (statement id_type (List.map snd group)) with
   | Some tbl => Ok (merge id_type group tbl)
   | None => Err DatabaseError
   end,
   logged (statement id_type (List.map snd group)) w).
Proof. apply get_metadata_default. Qed.

Lemma get_metadata_statement_witness :
  get_metadata names (fun _ _ => None) [("http://x/1", "B00ABCDEFG")] "ASIN" empty_world
  = (Err DatabaseError, logged (statement "ASIN" ["B00ABCDEFG"]) empty_world).
Proof.
  exact (get_metadata_statement (fun _ _ => None) [("http://x/1", "B00ABCDEFG")]
                                "ASIN" empty_world (or_introl eq_refl)).
Defined.


(** ** Orchestrator *)

(** The orchestrator, stage by stage. *)
Lemma get_eq (head : nat -> string -> option string) (connect : result connection)
    (link_list : list string) (nm : Names) (w : world) :
  get head connect link_list nm w =
  match get_asinisbns (fst (get_long_links head link_list nm w)) nm with
  | Err e => (Err e, snd (get_long_links head link_list nm w))
  | Ok l2 =>
      match connect with
      | Err e => (Err e, snd (get_long_links head link_list nm w))
      | Ok conn =>
          match guarded nm conn (asin (get_inputs l2 nm)) "ASIN"
                        (snd (get_long_links head link_list nm w)) with
          | (Err e, w2) => (Err e, w2)
          | (Ok df_asin, w2) =>
              match guarded nm conn (isbn (get_inputs l2 nm)) "ISBN_13" w2 with
              | (Err e, w3) => (Err e, w3)
              | (Ok df_isbn, w3) => (Ok (df_asin ++ df_isbn), w3)
              end
          end
      end
  end.
Proof.
  unfold get, guarded, bind, ret.
  destruct (get_long_links head link_list nm w) as [l1 w1]. simpl.
  destruct (get_asinisbns l1 nm) as [l2|e]; [|reflexivity].
  destruct connect as [conn|e]; [|reflexivity].
  destruct ((if Nat.ltb 0 (length (asin (get_inputs l2 nm)))
             then get_metadata nm conn (asin (get_inputs l2 nm)) "ASIN"
             else fun w => (Ok [], w)) w1) as [[df_asin|e] w2]; [|reflexivity].
  destruct ((if Nat.ltb 0 (length (isbn (get_inputs l2 nm)))
             then get_metadata nm conn (isbn (get_inputs l2 nm)) "ISBN_13"
             else fun w => (Ok [], w)) w2) as [[df_isbn|e] w3]; reflexivity.
Qed.

Lemma guarded_cons (nm : Names) (conn : connection) (p : string * string)
    (group : list (string * string)) (id_type : string) :
  guarded nm conn (p :: group) id_type = get_metadata nm conn (p :: group) id_type.
Proof. reflexivity. Qed.

Lemma guarded_world (nm : Names) (conn : connection)
    (group : list (string * string)) (id_type : string) (w : world) :
  snd (guarded nm conn group id_type w) = w \/
  exists query, snd (guarded nm conn group id_type w) = logged query w.
Proof.
  destruct group as [|p group]; [now left|].
  rewrite guarded_cons.
  destruct (get_metadata_world nm conn (p :: group) id_type w) as [H|[query [_ H]]];
    [now left | right; now exists query].
Qed.

(** X10.  Whatever the outcome, the later stages leave the resolver's work
    in place: after [get] the files and the request log are those the
    resolver left (the cache is persisted even when extraction, the
    connection or the warehouse fails), and the statement log has grown
    by at most two statements. *)
Theorem get_effects (head : nat -> string -> option string) (connect : result connection)
    (link_list : list string) (nm : Names) (w : world) :
  files (snd (get head connect link_list nm w)) =
    files (snd (get_long_links head link_list nm w)) /\
  requests (snd (get head connect link_list nm w)) =
    requests (snd (get_long_links head link_list nm w)) /\
  exists qs, queries (snd (get head connect link_list nm w)) = queries w ++ qs /\
             length qs <= 2.
Proof.
  rewrite get_eq.
  assert (Hq : queries (snd (get_long_links head link_list nm w)) = queries w)
    by (now rewrite get_long_links_eq).
  set (w1 := snd (get_long_links head link_list nm w)) in *. clearbody w1.
  assert (Hstay : files w1 = files w1 /\ requests w1 = requests w1 /\
                  exists qs, queries w1 = queries w ++ qs /\ length qs <= 2).
  { repeat split. exists []. rewrite app_nil_r. split; [exact Hq | simpl; lia]. }
  destruct (get_asinisbns _ nm) as [l2|e]; [|exact Hstay].
  destruct connect as [conn|e]; [|exact Hstay].
  pose proof (guarded_world nm conn (asin (get_inputs l2 nm)) "ASIN" w1) as Ha.
  destruct (guarded nm conn (asin (get_inputs l2 nm)) "ASIN" w1) as [ra w2].
  simpl in Ha.
  assert (H2 : files w2 = files w1 /\ requests w2 = requests w1 /\
               exists qs, queries w2 = queries w ++ qs /\ length qs <= 1).
  { destruct Ha as [->|[query ->]]; simpl.
    - repeat split. exists []. rewrite app_nil_r. split; [exact Hq | simpl; lia].
    - repeat split. exists [query]. rewrite Hq. split; [reflexivity | simpl; lia]. }
  destruct H2 as [Hf2 [Hr2 [qs2 [Hq2 Hl2]]]].
  destruct ra as [df_asin|e].
  - pose proof (guarded_world nm conn (isbn (get_inputs l2 nm)) "ISBN_13" w2) as Hi.
    destruct (guarded nm conn (isbn (get_inputs l2 nm)) "ISBN_13" w2) as [ri w3].
    simpl in Hi.
    assert (H3 : files w3 = files w1 /\ requests w3 = requests w1 /\
                 exists qs, queries w3 = queries w ++ qs /\ length qs <= 2).
    { destruct Hi as [->|[query ->]]; simpl.
      - repeat split; try assumption. exists qs2. split; [exact Hq2 | lia].
      - repeat split; try assumption. exists (qs2 ++ [query]).
        rewrite Hq2, <- app_assoc, length_app. split; [reflexivity | simpl; lia]. }
    destruct ri; exact H3.
  - simpl. repeat split; try assumption. exists qs2. split; [exact Hq2 | lia].
Qed.

(** X11.  When no link resolves (the output of the resolver is empty, as
    for an empty input or when every request fails) the orchestrator still
    opens the connection: it returns the empty table if that succeeds and
    raises the connection's error if it fails.  No statement is executed. *)
Theorem get_nothing_resolved (head : nat -> string -> option string)
    (connect : result connection) (link_list : list string) (nm : Names) (w : world) :
  fst (get_long_links head link_list nm w) = [] ->
  get head connect link_list nm w =
  (match connect with
   | Ok _ => Ok []
   | Err e => Err e
   end, snd (get_long_links head link_list nm w)).
Proof.
  intros H. rewrite get_eq, H. simpl.
  destruct connect as [conn|e]; reflexivity.
Qed.

Lemma get_nothing_resolved_witness :
  fst (get head_down (Err ConnectionError) ["http://gone/"] names empty_world)
  = Err ConnectionError /\
  fst (get head_down (Ok conn_demo) ["http://gone/"] names empty_world) = Ok [].
Proof.
  split.
  - rewrite (get_nothing_resolved head_down (Err ConnectionError) ["http://gone/"]
                                  names empty_world eq_refl).
    reflexivity.
  - rewrite (get_nothing_resolved head_down (Ok conn_demo) ["http://gone/"]
                                  names empty_world eq_refl).
    reflexivity.
Defined.

Lemma upper_alnum_char (c : ascii) :
  is_upper_alnum c = true ->
  repr_char sq c = String c "" /\ Ascii.eqb c sq = false.
Proof.
  destruct c as [[] [] [] [] [] [] [] []]; intros H;
    try discriminate H; split; reflexivity.
Qed.

Lemma repr_str_upper_alnum (s : string) :
  Str.all is_upper_alnum s = true -> repr_str s = quoted s.
Proof.
  intros H.
  assert (Hq : has_char sq s = false /\ repr_body sq s = s).
  { induction s as [|c s IH]; [now split|].
    simpl in H. apply andb_prop in H as [Hc Hs].
    destruct (upper_alnum_char c Hc) as [Hr He].
    destruct (IH Hs) as [H1 H2]. simpl. now rewrite He, H1, Hr, H2. }
  destruct Hq as [H1 H2].
  unfold repr_str, repr_quote, quoted. rewrite H1. simpl. now rewrite H2.
Qed.

Lemma repr_tuple_upper_alnum (ids : list string) :
  Forall (fun id => Str.all is_upper_alnum id = true) ids ->
  repr_tuple ids = sql_tuple ids.
Proof.
  intros F.
  assert (Hmap : List.map repr_str ids = List.map quoted ids).
  { induction F as [|id ids H F IH]; simpl; [reflexivity|].
    now rewrite repr_str_upper_alnum, IH. }
  destruct ids as [|x [|y ids]]; [reflexivity | |].
  - unfold repr_tuple, sql_tuple. inversion F; subst.
    now rewrite repr_str_upper_alnum.
  - unfold repr_tuple, sql_tuple. now rewrite Hmap.
Qed.

Lemma all_digit_upper_alnum (s : string) :
  Str.all is_digit s = true -> Str.all is_upper_alnum s = true.
Proof.
  induction s as [|c s IH]; simpl; [reflexivity|].
  intros H. apply andb_prop in H as [Hc Hs].
  unfold is_upper_alnum. rewrite Hc, orb_true_r. now apply IH.
Qed.

Lemma id_shape_upper_alnum (id : string) :
  id_shape id = true -> Str.all is_upper_alnum id = true.
Proof.
  unfold id_shape. rewrite !orb_true_iff. intros [[H|H]|H].
  - unfold isbn13_shape in H. rewrite !andb_true_iff in H.
    apply all_digit_upper_alnum. tauto.
  - unfold asin_shape in H. rewrite !andb_true_iff, String.eqb_eq in H.
    destruct H as [[_ Ht] Ha].
    rewrite (all_take_drop _ 1), Ht, Ha. reflexivity.
  - unfold isbn10_shape in H. rewrite !andb_true_iff in H.
    destruct H as [[_ Hd] Ha].
    rewrite (all_take_drop _ 9), Ha, (all_digit_upper_alnum _ Hd). reflexivity.
Qed.

(** X13.  With the default configuration every statement the orchestrator
    executes is the template filled with one of the two tags and a
    non-empty tuple of identifiers that the pattern matched, each written
    between single quotes (a single identifier is followed by a comma).
    The identifiers are upper-case letters and digits only, so no text of
    a URL other than such an identifier reaches the statement. *)
Theorem get_statements (head : nat -> string -> option string)
    (connect : result connection) (link_list : list string) (w : world)
    (query : string) :
  In query (queries (snd (get head connect link_list names w))) ->
  In query (queries w) \/
  exists (id_type : string) (ids : list string),
    (id_type = "ASIN" \/ id_type = "ISBN_13") /\
    ids <> [] /\
    Forall (fun id => id_shape id = true /\ Str.all is_upper_alnum id = true) ids /\
    query = q_head +:+ id_type +:+ " in " +:+ sql_tuple ids +:+ q_tail.
Proof.
  rewrite get_eq.
  assert (Hq : queries (snd (get_long_links head link_list names w)) = queries w)
    by (now rewrite get_long_links_eq).
  set (w1 := snd (get_long_links head link_list names w)) in *. clearbody w1.
  destruct (get_asinisbns _ names) as [l2|e0] eqn:El2;
    [|simpl; rewrite Hq; now left].
  destruct connect as [conn|e0]; [|simpl; rewrite Hq; now left].
  unfold get_asinisbns in El2.
  apply asinisbns_loop_Ok in El2 as [ids0 [Hids F]]. simpl in Hids. subst l2.
  assert (Hshape : forall p, In p ids0 ->
             id_shape (snd p) = true /\ Str.all is_upper_alnum (snd p) = true).
  { intros [link id] Hin.
    destruct (Forall2_extracted_In_r _ _ _ _ F Hin) as [[l u] [_ [_ Hs]]].
    simpl in Hs. apply re_search_sound in Hs as [L _].
    apply lang_default_regex in L. simpl.
    split; [exact L | now apply id_shape_upper_alnum]. }
  assert (Hguard : forall group id_type w0,
             (id_type = "ASIN" \/ id_type = "ISBN_13") ->
             (forall p, In p group -> In p ids0) ->
             In query (queries (snd (guarded names conn group id_type w0))) ->
             In query (queries w0) \/
             exists (id_type : string) (ids : list string),
               (id_type = "ASIN" \/ id_type = "ISBN_13") /\
               ids <> [] /\
               Forall (fun id => id_shape id = true /\
                                 Str.all is_upper_alnum id = true) ids /\
               query = q_head +:+ id_type +:+ " in " +:+ sql_tuple ids +:+ q_tail).
  { intros group id_type w0 Htag Hsub Hin.
    destruct group as [|p group]; [now left|].
    rewrite guarded_cons, (get_metadata_default _ _ _ _ Htag) in Hin.
    simpl in Hin. apply in_app_iff in Hin as [Hin|[<-|[]]]; [now left|].
    right. exists id_type, (List.map snd (p :: group)).
    assert (HF : Forall (fun id => id_shape id = true /\
                                   Str.all is_upper_alnum id = true)
                        (List.map snd (p :: group))).
    { apply List.Forall_forall. intros id Hid.
      apply in_map_iff in Hid as [p' [<- Hp']]. apply Hshape, Hsub, Hp'. }
    split; [exact Htag|]. split; [discriminate|]. split; [exact HF|].
    unfold statement. rewrite repr_tuple_upper_alnum; [reflexivity|].
    eapply List.Forall_impl; [|exact HF]. simpl. tauto. }
  assert (Hsa : forall p, In p (asin (get_inputs ids0 names)) -> In p ids0).
  { intros p. rewrite get_inputs_spec; simpl. rewrite filter_In. tauto. }
  assert (Hsi : forall p, In p (isbn (get_inputs ids0 names)) -> In p ids0).
  { intros p. rewrite get_inputs_spec; simpl. rewrite filter_In. tauto. }
  pose proof (Hguard (asin (get_inputs ids0 names)) "ASIN" w1
                (or_introl eq_refl) Hsa) as Ha.
  destruct (guarded names conn (asin (get_inputs ids0 names)) "ASIN" w1)
    as [[df_asin|e1] w2]; simpl in Ha.
  - pose proof (Hguard (isbn (get_inputs ids0 names)) "ISBN_13" w2
                  (or_intror eq_refl) Hsi) as Hi.
    destruct (guarded names conn (isbn (get_inputs ids0 names)) "ISBN_13" w2)
      as [[df_isbn|e2] w3]; simpl in Hi; simpl; intros Hin.
    all: destruct (Hi Hin) as [Hin2|?]; [|now right].
    all: destruct (Ha Hin2) as [Hin1|?]; [|now right].
    all: rewrite Hq in Hin1; now left.
  - simpl. intros Hin. destruct (Ha Hin) as [Hin1|?]; [|now right].
    rewrite Hq in Hin1; now left.
Qed.

Lemma get_statements_witness :
  In (q_head +:+ "ISBN_13" +:+ " in " +:+ "('9780143127741',)" +:+ q_tail)
     (queries (snd (get head_demo (Ok conn_demo) ["http://x/1"] names empty_world))) /\
  (In (q_head +:+ "ISBN_13" +:+ " in " +:+ "('9780143127741',)" +:+ q_tail)
      (queries empty_world) \/
   exists (id_type : string) (ids : list string),
     (id_type = "ASIN" \/ id_type = "ISBN_13") /\
     ids <> [] /\
     Forall (fun id => id_shape id = true /\ Str.all is_upper_alnum id = true) ids /\
     q_head +:+ "ISBN_13" +:+ " in " +:+ "('9780143127741',)" +:+ q_tail
     = q_head +:+ id_type +:+ " in " +:+ sql_tuple ids +:+ q_tail).
Proof.
  assert (H : In (q_head +:+ "ISBN_13" +:+ " in " +:+ "('9780143127741',)" +:+ q_tail)
                 (queries (snd (get head_demo (Ok conn_demo) ["http://x/1"] names
                                    empty_world))))
    by (vm_compute; left; reflexivity).
  split; [exact H|].
  exact (get_statements head_demo (Ok conn_demo) ["http://x/1"] empty_world _ H).
Defined.

Lemma guarded_Ok_In (nm : Names) (conn : connection)
    (group : list (string * string)) (id_type link id : string)
    (w w' : world) (df : list row) (r : title_info) :
  guarded nm conn group id_type w = (Ok df, w') ->
  (forall n query tbl, conn n query = Some tbl -> In r tbl) ->
  In (link, id) group -> column id_type r = Some id ->
  In {| row_link := link; row_info := r |} df.
Proof.
  intros H Hall Hin Hk.
  destruct group as [|p group]; [contradiction|].
  rewrite guarded_cons in H.
  apply get_metadata_Ok in H as [query [tbl [_ [Hc [-> _]]]]].
  apply (In_merge_intro _ _ id); [exact Hin | exact (Hall _ _ _ Hc) | exact Hk].
Qed.

(** X14.  The converse of the trace of a row: when the pipeline returns a
    table, a link that the resolver resolved, whose URL the pattern
    matched with an identifier of length 10 (of length 13), has a row for
    every record that the warehouse returns in all its answers and whose
    ASIN (ISBN_13) column holds that identifier.  A ten-character
    identifier is looked up in the ASIN column only, a thirteen-character
    one in the ISBN_13 column only. *)
Theorem get_rows_complete (head : nat -> string -> option string)
    (conn : connection) (link_list : list string) (nm : Names) (w : world)
    (df : list row) (link url id : string) (r : title_info) :
  fst (get head (Ok conn) link_list nm w) = Ok df ->
  In (link, url) (fst (get_long_links head link_list nm w)) ->
  re_search (regex_str nm) url = Some id ->
  (forall n query tbl, conn n query = Some tbl -> In r tbl) ->
  (String.length id = 10 /\ ASIN r = Some id) \/
  (String.length id = 13 /\ ISBN_13 r = Some id) ->
  In {| row_link := link; row_info := r |} df.
Proof.
  rewrite get_eq. intros Hdf Hres Hs Hall Hkey.
  destruct (get_asinisbns _ nm) as [l2|e0] eqn:El2; [|discriminate].
  unfold get_asinisbns in El2.
  apply asinisbns_loop_Ok in El2 as [ids0 [Hids F]]. simpl in Hids. subst l2.
  destruct (Forall2_extracted_In_l _ _ _ _ F Hres) as [[link' id'] [Hin [Hl Hs']]].
  simpl in Hl, Hs'. subst link'.
  rewrite Hs in Hs'. inversion Hs'; subst id'. clear Hs'.
  destruct (guarded nm conn (asin (get_inputs ids0 nm)) "ASIN" _)
    as [[df_asin|e1] w2] eqn:Ea; [|discriminate].
  destruct (guarded nm conn (isbn (get_inputs ids0 nm)) "ISBN_13" w2)
    as [[df_isbn|e2] w3] eqn:Ei; [|discriminate].
  simpl in Hdf. inversion Hdf; subst df. apply in_app_iff.
  destruct Hkey as [[Hlen Hk]|[Hlen Hk]].
  - left. apply (guarded_Ok_In _ _ _ _ _ id _ _ _ _ Ea Hall); [|exact Hk].
    rewrite get_inputs_spec; simpl. apply filter_In. split; [exact Hin|].
    unfold len_is; simpl. now apply Nat.eqb_eq.
  - right. apply (guarded_Ok_In _ _ _ _ _ id _ _ _ _ Ei Hall); [|exact Hk].
    rewrite get_inputs_spec; simpl. apply filter_In. split; [exact Hin|].
    unfold len_is; simpl. now apply Nat.eqb_eq.
Qed.

Lemma get_rows_complete_witness :
  fst (get head_demo (Ok conn_demo) ["http://x/1"; "http://gone/"] names empty_world)
  = Ok [row_demo] /\
  In {| row_link := "http://x/1"; row_info := title_demo |} [row_demo].
Proof.
  assert (H : fst (get head_demo (Ok conn_demo) ["http://x/1"; "http://gone/"] names
                       empty_world) = Ok [row_demo])
    by (vm_compute; reflexivity).
  split; [exact H|].
  apply (get_rows_complete head_demo conn_demo ["http://x/1"; "http://gone/"] names
           empty_world [row_demo] "http://x/1" "http://example.com/9780143127741"
           "9780143127741" title_demo H).
  - vm_compute. left; reflexivity.
  - vm_compute; reflexivity.
  - intros n query tbl Hc. inversion Hc. left; reflexivity.
  - right. split; reflexivity.
Defined.
